(** * Verification of the tagged TTL cache (modules/database.py) and of the
    zip backup archiver (modules/backup.py) of the Aeropostale system. *)

From Stdlib Require Import String Ascii List ZArith Lia Bool QArith.
From Stdlib Require Import Sorting.Permutation Sorting.Sorted.
From Stdlib Require Import Floats.SpecFloat.
Import ListNotations.
Open Scope string_scope.
Open Scope Z_scope.
Set Warnings "-register-all".

(* ------------------------------------------------------------------ *)
(** ** Python values and dictionaries *)

(** The values stored in the cache are opaque Python objects; [PyNone] is
    Python's [None], the other constructors stand for any other object. *)
Inductive PyVal :=
| PyNone
| PyInt (z : Z)
| PyStr (s : string).

(** A Python [dict] keeps insertion order, and assigning to an existing key
    keeps its position: it is modelled as an association list with unique
    keys. *)
Section Dict.
Context {V : Type}.

Fixpoint dict_get (k : string) (d : list (string * V)) : option V :=
  match d with
  | [] => None
  | (k', v) :: r => if String.eqb k k' then Some v else dict_get k r
  end.

(** [d[k] = v] *)
Fixpoint dict_set (k : string) (v : V) (d : list (string * V))
  : list (string * V) :=
  match d with
  | [] => [(k, v)]
  | (k', v') :: r =>
      if String.eqb k k' then (k, v) :: r else (k', v') :: dict_set k v r
  end.

(** [del d[k]] *)
Definition dict_del (k : string) (d : list (string * V)) : list (string * V) :=
  filter (fun p => negb (String.eqb k (fst p))) d.

Definition dict_mem (k : string) (d : list (string * V)) : bool :=
  match dict_get k d with Some _ => true | None => false end.
End Dict.

(* ------------------------------------------------------------------ *)
(** ** CacheEntry *)

(** Timestamps ([datetime.now()]) are integers counting microseconds; a
    [ttl] is in seconds, as in the source. *)
Record CacheEntry := mkEntry {
  key : string;
  value : PyVal;
  created_at : Z;
  ttl : Z;
  access_count : Z;
  last_accessed : Z;
  tags : list string
}.

(** [CacheEntry.__init__] *)
Definition new_entry (k : string) (v : PyVal) (ttl0 : Z) (now : Z) : CacheEntry :=
  mkEntry k v now ttl0 0 now [].

(** [(datetime.now() - self.created_at).total_seconds() > self.ttl] *)
Definition is_expired (now : Z) (e : CacheEntry) : bool :=
  Z.ltb (ttl e * 1000000) (now - created_at e).

(** [access]: counts the access and refreshes [last_accessed]. *)
Definition access (now : Z) (e : CacheEntry) : CacheEntry :=
  mkEntry (key e) (value e) (created_at e) (ttl e) (access_count e + 1) now (tags e).

Definition has_tag (t : string) (e : CacheEntry) : bool :=
  existsb (String.eqb t) (tags e).

(** [add_tag]: appends the tag unless already present. *)
Definition add_tag (t : string) (e : CacheEntry) : CacheEntry :=
  if has_tag t e then e
  else mkEntry (key e) (value e) (created_at e) (ttl e) (access_count e)
         (last_accessed e) (tags e ++ [t]).

(* ------------------------------------------------------------------ *)
(** ** SmartCache *)

Record Stats := mkStats {
  hits : Z;
  misses : Z;
  evictions : Z;
  expirations : Z;
  size : Z
}.

Record SmartCache := mkCache {
  cache : list (string * CacheEntry);
  max_size : Z;
  stats : Stats
}.

Definition zero_stats : Stats := mkStats 0 0 0 0 0.

(** [SmartCache.__init__] (the cleanup thread aside). *)
Definition new_cache (max_size0 : Z) : SmartCache := mkCache [] max_size0 zero_stats.

Definition len {A} (l : list A) : Z := Z.of_nat (length l).

Definition with_cache (c : SmartCache) (d : list (string * CacheEntry)) : SmartCache :=
  mkCache d (max_size c) (stats c).

Definition with_stats (c : SmartCache) (s : Stats) : SmartCache :=
  mkCache (cache c) (max_size c) s.

Definition set_size (s : Stats) (n : Z) : Stats :=
  mkStats (hits s) (misses s) (evictions s) (expirations s) n.

(** [SmartCache.get]: the result and the cache after the call. *)
Definition get (now : Z) (k : string) (default : PyVal) (c : SmartCache)
  : PyVal * SmartCache :=
  let s := stats c in
  match dict_get k (cache c) with
  | Some e =>
      if is_expired now e then
        let d := dict_del k (cache c) in
        (default,
         mkCache d (max_size c)
           (mkStats (hits s) (misses s + 1) (evictions s) (expirations s + 1) (len d)))
      else
        (value (access now e),
         mkCache (dict_set k (access now e) (cache c)) (max_size c)
           (mkStats (hits s + 1) (misses s) (evictions s) (expirations s) (size s)))
  | None =>
      (default,
       with_stats c (mkStats (hits s) (misses s + 1) (evictions s) (expirations s) (size s)))
  end.

(** Python truthiness of a [str]: only the empty string is false. *)
Definition str_truthy (s : string) : bool := negb (String.eqb s "").

(** The scan of [_evict_oldest]: [oldest_time] starts at [datetime.now()]
    and an entry replaces the candidate when its [last_accessed] is strictly
    older. *)
Definition oldest_scan (now : Z) (d : list (string * CacheEntry)) : option string * Z :=
  fold_left
    (fun acc p =>
       if Z.ltb (last_accessed (snd p)) (snd acc) then (Some (fst p), last_accessed (snd p))
       else acc)
    d (None, now).

(** [SmartCache._evict_oldest]; note the truthiness test [if oldest_key:]. *)
Definition evict_oldest (now : Z) (c : SmartCache) : SmartCache :=
  match cache c with
  | [] => c
  | _ =>
      match fst (oldest_scan now (cache c)) with
      | Some k =>
          if str_truthy k then
            let d := dict_del k (cache c) in
            let s := stats c in
            mkCache d (max_size c)
              (mkStats (hits s) (misses s) (evictions s + 1) (expirations s) (len d))
          else c
      | None => c
      end
  end.

(** [SmartCache.set]; [tags=None] and [tags=[]] both add no tag. *)
Definition set (now : Z) (k : string) (v : PyVal) (ttl0 : Z) (tgs : list string)
    (c : SmartCache) : SmartCache :=
  let c1 :=
    if Z.leb (max_size c) (len (cache c)) && negb (dict_mem k (cache c))
    then evict_oldest now c else c in
  let entry := fold_left (fun e t => add_tag t e) tgs (new_entry k v ttl0 now) in
  let d := dict_set k entry (cache c1) in
  mkCache d (max_size c1) (set_size (stats c1) (len d)).

(** [SmartCache.invalidate_by_tag]: the count returned and the cache after. *)
Definition invalidate_by_tag (t : string) (c : SmartCache) : Z * SmartCache :=
  let keys_to_delete := map fst (filter (fun p => has_tag t (snd p)) (cache c)) in
  let d := fold_left (fun d k => dict_del k d) keys_to_delete (cache c) in
  let c' := mkCache d (max_size c) (set_size (stats c) (len d)) in
  (len keys_to_delete, c').

(* ------------------------------------------------------------------ *)
(** ** get_stats *)

(** ** Binary64 arithmetic *)

(** Python's [a / b] on ints: the binary64 number nearest to the exact
    quotient, ties to even (CPython's [long_true_divide] rounds correctly);
    the digits of the quotient are computed exactly, then rounded once. *)
Definition int_truediv (a b : Z) : spec_float :=
  match a, b with
  | Z0, Zpos _ => S754_zero false
  | Z0, Zneg _ => S754_zero true
  | Zpos pa, Zpos pb | Zneg pa, Zneg pb =>
      let '(mz, ez, lz) := SFdiv_core_binary 53 1024 (Zpos pa) 0 (Zpos pb) 0 in
      binary_round_aux 53 1024 false mz ez lz
  | Zpos pa, Zneg pb | Zneg pa, Zpos pb =>
      let '(mz, ez, lz) := SFdiv_core_binary 53 1024 (Zpos pa) 0 (Zpos pb) 0 in
      binary_round_aux 53 1024 true mz ez lz
  | _, Z0 => S754_nan   (* ZeroDivisionError; never reached *)
  end.

(** [float(z)]: the nearest binary64 number. *)
Definition float_of_int (z : Z) : spec_float := binary_normalize 53 1024 z 0 false.

(** [h / total * 100]: the int quotient, then a float product with the int
    [100] (converted to [100.0]). *)
Definition rate_float (h total : Z) : spec_float :=
  SFmul 53 1024 (int_truediv h total) (float_of_int 100).

(** The exact value of a finite binary64 number (the other values do not
    arise here). *)
Definition sf_value (f : spec_float) : Q :=
  match f with
  | S754_finite s m e =>
      let v := if Z.leb 0 e then inject_Z (Zpos m * 2 ^ e)
               else Qmake (Zpos m) (Z.to_pos (2 ^ (- e))) in
      if s then Qopp v else v
  | _ => 0%Q
  end.

(** [hit_rate = (hits / total_accesses * 100) if total_accesses > 0 else 0],
    given by its exact value: the float, or the int [0]. *)
Definition hit_rate_value (s : Stats) : Q :=
  let total_accesses := hits s + misses s in
  if Z.ltb 0 total_accesses
  then sf_value (rate_float (hits s) total_accesses)
  else 0%Q.

Definition Qgt_bool (a b : Q) : bool := negb (Qle_bool a b).

(** Round to the nearest integer, ties to even (Python formats a float from
    its exact binary value, rounding half to even); used on non-negative
    values. *)
Definition round_half_even (q : Q) : Z :=
  let n := Qnum q in
  let d := Zpos (Qden q) in
  let fl := n / d in
  let r := n mod d in
  if Z.ltb (2 * r) d then fl
  else if Z.ltb d (2 * r) then fl + 1
  else if Z.even fl then fl else fl + 1.

Fixpoint digits_aux (fuel : nat) (n : Z) (acc : string) : string :=
  match fuel with
  | O => acc
  | S f =>
      let acc' := String (Ascii.ascii_of_nat (48 + Z.to_nat (n mod 10))) acc in
      if Z.ltb n 10 then acc' else digits_aux f (n / 10) acc'
  end.

(** Decimal digits of a non-negative integer below [10^40]. *)
Definition z_to_dec (n : Z) : string := digits_aux 40 n "".

(** [f"{x:.1f}"] for a non-negative float or int [x], given by its exact
    value. *)
Definition format_1f (q : Q) : string :=
  let n := round_half_even (q * inject_Z 10)%Q in
  z_to_dec (n / 10) ++ "." ++ z_to_dec (n mod 10).

Record StatsReport := mkReport {
  r_hits : Z;
  r_misses : Z;
  r_evictions : Z;
  r_expirations : Z;
  r_size : Z;
  hit_rate : string;
  efficiency : string;
  memory_usage : string
}.

(** [SmartCache.get_stats]; [memory] is the estimate produced by
    [_estimate_memory_usage] from [sys.getsizeof], taken as given. *)
Definition get_stats (memory : string) (c : SmartCache) : StatsReport :=
  let s := stats c in
  let hr := hit_rate_value s in
  let eff := if Qgt_bool hr (inject_Z 80) then "alta"
             else if Qgt_bool hr (inject_Z 50) then "media" else "baja" in
  mkReport (hits s) (misses s) (evictions s) (expirations s) (size s)
    (format_1f hr ++ "%") eff memory.

(* ------------------------------------------------------------------ *)
(** ** CacheManager and its memoization wrapper *)

Record CacheManager := mkManager {
  default_cache : SmartCache;
  namespaces : list (string * SmartCache)
}.

(** [CacheManager.get_namespace]: namespaces are created lazily with
    [max_size=500]. *)
Definition get_namespace (ns : string) (m : CacheManager) : SmartCache * CacheManager :=
  match dict_get ns (namespaces m) with
  | Some c => (c, m)
  | None =>
      let c := new_cache 500 in
      (c, mkManager (default_cache m) (dict_set ns c (namespaces m)))
  end.

(** The namespace cache is a shared object mutated in place: the manager
    sees its new state. *)
Definition put_namespace (ns : string) (c : SmartCache) (m : CacheManager) : CacheManager :=
  mkManager (default_cache m) (dict_set ns c (namespaces m)).

(** One call of [wrapper] built by [memoize(ttl, tags, namespace)].
    [cache_key] is the digest computed by [_generate_function_key] from the
    function name and the arguments, and [result] is what the wrapped
    function returns on these arguments. The boolean says whether [func] was invoked. *)
Definition memoize_call (ttl0 : Z) (tgs : list string) (ns : string)
    (cache_key : string) (result : PyVal) (now : Z) (m : CacheManager)
  : PyVal * bool * CacheManager :=
  let (cache_instance, m1) := get_namespace ns m in
  let (cached_result, ci1) := get now cache_key PyNone cache_instance in
  match cached_result with
  | PyNone =>
      (result, true, put_namespace ns (set now cache_key result ttl0 tgs ci1) m1)
  | r => (r, false, put_namespace ns ci1 m1)
  end.

Example format_1f_third : format_1f (inject_Z 100 / inject_Z 3)%Q = "33.3".
Proof. reflexivity. Qed.
Example format_1f_zero : format_1f 0%Q = "0.0".
Proof. reflexivity. Qed.
Example format_1f_full : format_1f (inject_Z 100) = "100.0".
Proof. reflexivity. Qed.

(* ------------------------------------------------------------------ *)
(** ** Dictionary lemmas *)

Section DictFacts.
Context {V : Type}.

Lemma dict_get_set_same (k : string) (v : V) (d : list (string * V)) :
  dict_get k (dict_set k v d) = Some v.
Proof.
  induction d as [|[k' v'] r IH]; simpl.
  - now rewrite String.eqb_refl.
  - destruct (String.eqb k k') eqn:E; simpl.
    + now rewrite String.eqb_refl.
    + now rewrite E.
Qed.

Lemma dict_get_del_same (k : string) (d : list (string * V)) :
  dict_get k (dict_del k d) = None.
Proof.
  unfold dict_del; induction d as [|[k' v'] r IH]; simpl; [reflexivity|].
  destruct (String.eqb k k') eqn:E; simpl; [exact IH|].
  now rewrite E.
Qed.

Lemma dict_get_not_in (k : string) (d : list (string * V)) :
  ~ In k (map fst d) -> dict_get k d = None.
Proof.
  induction d as [|[k' v'] r IH]; simpl; intro Hn; [reflexivity|].
  destruct (String.eqb k k') eqn:E.
  - apply String.eqb_eq in E; subst; tauto.
  - apply IH; tauto.
Qed.

Lemma filter_twice (f g : string * V -> bool) (d : list (string * V)) :
  filter g (filter f d) = filter (fun x => f x && g x) d.
Proof.
  induction d as [|x r IH]; simpl; [reflexivity|].
  destruct (f x); simpl; [destruct (g x)|]; simpl; now rewrite IH.
Qed.

Lemma fold_dict_del (ks : list string) (d : list (string * V)) :
  fold_left (fun d k => dict_del k d) ks d
  = filter (fun p => negb (existsb (String.eqb (fst p)) ks)) d.
Proof.
  revert d; induction ks as [|k ks IH]; intro d; simpl.
  - induction d as [|x r IHd]; simpl; [reflexivity|now rewrite <- IHd].
  - rewrite IH; unfold dict_del; rewrite filter_twice.
    apply filter_ext; intros [k' v']; simpl.
    rewrite (String.eqb_sym k k').
    now destruct (String.eqb k' k).
Qed.

Lemma nodup_keys_same (l : list (string * V)) (p q : string * V) :
  NoDup (map fst l) -> In p l -> In q l -> fst p = fst q -> p = q.
Proof.
  induction l as [|x r IH]; simpl; [tauto|].
  intros Hnd Hp Hq Heq; inversion Hnd as [|? ? Hx Hr]; subst.
  destruct Hp as [<-|Hp], Hq as [<-|Hq]; try reflexivity.
  - exfalso; apply Hx; rewrite Heq; now apply in_map.
  - exfalso; apply Hx; rewrite <- Heq; now apply in_map.
  - now apply IH.
Qed.

Lemma dict_get_filter (g : string * V -> bool) (k : string) (l : list (string * V)) :
  NoDup (map fst l) ->
  dict_get k (filter g l)
  = match dict_get k l with
    | Some v => if g (k, v) then Some v else None
    | None => None
    end.
Proof.
  induction l as [|[k' v'] r IH]; simpl; intro Hnd; [reflexivity|].
  inversion Hnd as [|? ? Hx Hr]; subst.
  destruct (String.eqb k k') eqn:E.
  - apply String.eqb_eq in E; subst.
    destruct (g (k', v')) eqn:G; simpl.
    + now rewrite String.eqb_refl.
    + apply dict_get_not_in; intro Hin; apply Hx.
      apply in_map_iff in Hin as [[a b] [Ha Hin]]; simpl in Ha; subst.
      apply filter_In in Hin as [Hin _]; now apply (in_map fst) in Hin.
  - destruct (g (k', v')); simpl; [rewrite E|]; now apply IH.
Qed.
End DictFacts.

(* ------------------------------------------------------------------ *)
(** ** Cache lemmas *)

Lemma add_tags_fields (tgs : list string) (e : CacheEntry) :
  let e' := fold_left (fun e t => add_tag t e) tgs e in
  value e' = value e /\ created_at e' = created_at e /\ ttl e' = ttl e.
Proof.
  revert e; induction tgs as [|t r IH]; intro e; simpl; [auto|].
  destruct (IH (add_tag t e)) as (H1 & H2 & H3).
  rewrite H1, H2, H3; unfold add_tag; destruct (has_tag t e); auto.
Qed.

Lemma set_lookup (now : Z) (k : string) (v : PyVal) (ttl0 : Z) (tgs : list string)
    (c : SmartCache) :
  exists e, dict_get k (cache (set now k v ttl0 tgs c)) = Some e
            /\ value e = v /\ created_at e = now /\ ttl e = ttl0.
Proof.
  unfold set; simpl.
  eexists; split; [apply dict_get_set_same|].
  apply add_tags_fields.
Qed.

Lemma get_counts (now : Z) (k : string) (default : PyVal) (c : SmartCache) :
  hits (stats (snd (get now k default c))) + misses (stats (snd (get now k default c)))
  = hits (stats c) + misses (stats c) + 1.
Proof.
  unfold get; destruct (dict_get k (cache c)) as [e|]; simpl;
    [destruct (is_expired now e)|]; simpl; lia.
Qed.

(** A sequence of [get] calls, each at its time and with its key. *)
Fixpoint run_gets (gs : list (Z * string)) (default : PyVal) (c : SmartCache) : SmartCache :=
  match gs with
  | [] => c
  | (now, k) :: r => run_gets r default (snd (get now k default c))
  end.

Lemma run_gets_counts (gs : list (Z * string)) (default : PyVal) (c : SmartCache) :
  hits (stats (run_gets gs default c)) + misses (stats (run_gets gs default c))
  = hits (stats c) + misses (stats c) + len gs.
Proof.
  revert c; induction gs as [|[now k] r IH]; intro c; simpl.
  - unfold len; simpl; lia.
  - rewrite IH, get_counts; unfold len; simpl length; lia.
Qed.

(* ------------------------------------------------------------------ *)
(** ** Cache claims *)

(** A manager whose ["default"] namespace holds, under key ["k"], an
    unexpired entry whose stored value is [None]. *)
Definition memo_state : CacheManager :=
  mkManager (new_cache 1000)
    [("default", mkCache [("k", new_entry "k" PyNone 300 0)] 500 (mkStats 0 0 0 0 1))].

(** C3 (failing input): the memoization wrapper treats a stored [None] as a
    miss: with an unexpired entry for the key holding [None], the wrapped
    computation is invoked again and its result written over the entry. *)
Theorem memoize_stored_none_recomputes :
  is_expired 1 (new_entry "k" PyNone 300 0) = false /\
  snd (fst (memoize_call 300 [] "default" "k" (PyInt 7) 1 memo_state)) = true /\
  fst (fst (memoize_call 300 [] "default" "k" (PyInt 7) 1 memo_state)) = PyInt 7.
Proof. vm_compute. repeat split. Qed.

(** A full cache ([max_size] 1) whose only entry has the empty key. *)
Definition full_cache_empty_key : SmartCache :=
  mkCache [("", new_entry "" (PyInt 1) 300 0)] 1 (mkStats 0 0 0 0 1).

(** C4 (failing input): when the least recently accessed entry has the key
    [""], [_evict_oldest] finds it but its [if oldest_key:] test is false, so
    nothing is evicted and the new entry brings the cache above
    [max_size]. *)
Theorem set_full_cache_empty_key_overflows :
  let c' := set 10 "b" (PyInt 2) 300 [] full_cache_empty_key in
  max_size c' = 1 /\ len (cache c') = 2 /\ evictions (stats c') = 0 /\
  dict_mem "" (cache c') = true /\ dict_mem "b" (cache c') = true.
Proof. vm_compute. repeat split. Qed.

(** C5: reading a key right after writing it returns the written value while
    the entry's age is at most its ttl; once the age exceeds the ttl the read
    returns the default, removes the entry and counts one miss and one
    expiration. *)
Theorem get_after_set (c : SmartCache) (k : string) (v default : PyVal)
    (ttl0 : Z) (tgs : list string) (t0 t1 : Z) :
  let c1 := set t0 k v ttl0 tgs c in
  (t1 - t0 <= ttl0 * 1000000 -> fst (get t1 k default c1) = v) /\
  (ttl0 * 1000000 < t1 - t0 ->
     fst (get t1 k default c1) = default /\
     dict_get k (cache (snd (get t1 k default c1))) = None /\
     misses (stats (snd (get t1 k default c1))) = misses (stats c1) + 1 /\
     expirations (stats (snd (get t1 k default c1))) = expirations (stats c1) + 1).
Proof.
  intro c1.
  destruct (set_lookup t0 k v ttl0 tgs c) as (e & He & Hv & Hc & Ht).
  fold c1 in He.
  unfold get; rewrite He; unfold is_expired; rewrite Hc, Ht.
  split; intro Hage.
  - replace (ttl0 * 1000000 <? t1 - t0) with false by (symmetry; apply Z.ltb_ge; lia).
    simpl; exact Hv.
  - replace (ttl0 * 1000000 <? t1 - t0) with true by (symmetry; apply Z.ltb_lt; lia).
    simpl; repeat split; apply dict_get_del_same.
Qed.

Lemma get_after_set_witness :
  (10 - 0 <= 300 * 1000000 /\
   fst (get 10 "a" PyNone (set 0 "a" (PyInt 5) 300 [] (new_cache 2))) = PyInt 5) /\
  (300 * 1000000 < 400000000 - 0 /\
   fst (get 400000000 "a" PyNone (set 0 "a" (PyInt 5) 300 [] (new_cache 2))) = PyNone).
Proof.
  split; split; try lia.
  - apply (get_after_set (new_cache 2) "a" (PyInt 5) PyNone 300 [] 0 10); lia.
  - apply (get_after_set (new_cache 2) "a" (PyInt 5) PyNone 300 [] 0 400000000); lia.
Defined.

(** C6: on a cache (a dict, so its keys are distinct) [invalidate_by_tag t]
    removes exactly the entries tagged [t], keeps every other entry as it was
    and in its order, and returns the number of entries removed. *)
Theorem invalidate_by_tag_exact (t : string) (c : SmartCache) :
  NoDup (map fst (cache c)) ->
  cache (snd (invalidate_by_tag t c))
    = filter (fun p => negb (has_tag t (snd p))) (cache c) /\
  (forall k, dict_get k (cache (snd (invalidate_by_tag t c)))
             = match dict_get k (cache c) with
               | Some e => if has_tag t e then None else Some e
               | None => None
               end) /\
  fst (invalidate_by_tag t c) = len (filter (fun p => has_tag t (snd p)) (cache c)).
Proof.
  intro Hnd.
  assert (Hc : cache (snd (invalidate_by_tag t c))
               = filter (fun p => negb (has_tag t (snd p))) (cache c)).
  { unfold invalidate_by_tag; simpl; rewrite fold_dict_del.
    apply filter_ext_in; intros [k e] Hin; simpl; f_equal.
    destruct (has_tag t e) eqn:Ht.
    - apply existsb_exists; exists k; split; [|apply String.eqb_refl].
      apply in_map_iff; exists (k, e); split; [reflexivity|].
      apply filter_In; now split.
    - apply Bool.not_true_iff_false; intro Hex.
      apply existsb_exists in Hex as [k' [Hk' Heq]].
      apply String.eqb_eq in Heq; subst k'.
      apply in_map_iff in Hk' as [[k2 e2] [Hk2 Hin2]]; simpl in Hk2; subst k2.
      apply filter_In in Hin2 as [Hin2 Ht2]; simpl in Ht2.
      assert (Hsame : (k, e2) = (k, e)) by (apply (nodup_keys_same (cache c)); auto).
      inversion Hsame; subst; congruence. }
  split; [exact Hc|split].
  - intro k; rewrite Hc, dict_get_filter by exact Hnd.
    destruct (dict_get k (cache c)); simpl; [destruct (has_tag t c0)|]; reflexivity.
  - unfold invalidate_by_tag, len; simpl; now rewrite length_map.
Qed.

Definition tagged_cache : SmartCache :=
  mkCache [("a", mkEntry "a" (PyInt 1) 0 300 0 0 ["kpis"]);
           ("b", mkEntry "b" (PyInt 2) 0 300 0 0 ["guias"])] 1000 (mkStats 0 0 0 0 2).

Lemma invalidate_by_tag_exact_witness :
  NoDup (map fst (cache tagged_cache)) /\
  fst (invalidate_by_tag "kpis" tagged_cache) = 1.
Proof.
  assert (Hnd : NoDup (map fst (cache tagged_cache))).
  { simpl; constructor; [simpl; intros [H|H]; [discriminate|exact H]|].
    constructor; [simpl; tauto|constructor]. }
  split; [exact Hnd|].
  destruct (invalidate_by_tag_exact "kpis" tagged_cache Hnd) as (_ & _ & H).
  rewrite H; reflexivity.
Defined.

(** A cache after one hit and two misses. *)
Definition one_hit_two_misses : SmartCache := mkCache [] 1000 (mkStats 1 2 0 0 0).

(** A cache after 23 hits and 57 misses. *)
Definition hits23_misses57 : SmartCache := mkCache [] 1000 (mkStats 23 57 0 0 0).

(** C9 (counterexample): after one hit and two misses [get_stats] reports
    ["33.3%"], not hits/(hits+misses)x100 = 100/3; after 23 hits and 57
    misses it reports ["28.7%"]: the float 23/80*100 lies just below 28.75,
    whose rounding to one decimal would be ["28.8"]. *)
Lemma hit_rate_reported_rounded :
  hit_rate (get_stats "0 B" one_hit_two_misses) = "33.3%" /\
  ~ (333 # 10 == inject_Z 1 / inject_Z (1 + 2) * inject_Z 100)%Q /\
  hit_rate (get_stats "0 B" hits23_misses57) = "28.7%" /\
  format_1f (inject_Z 23 / inject_Z (23 + 57) * inject_Z 100)%Q = "28.8".
Proof.
  split; [vm_compute; reflexivity|].
  split; [unfold Qeq; simpl; lia|].
  split; vm_compute; reflexivity.
Qed.

Lemma int_truediv_same (p : positive) :
  int_truediv (Zpos p) (Zpos p) = S754_finite false (2 ^ 52) (-52).
Proof.
  unfold int_truediv, SFdiv_core_binary.
  replace (Z.sub (Z.add (Zdigits2 (Zpos p)) 0) (Z.add (Zdigits2 (Zpos p)) 0)) with 0 by lia.
  change (Z.min (fexp 53 1024 0) (Z.sub 0 0)) with (-53).
  change (Z.sub (Z.sub 0 0) (-53)) with 53.
  rewrite Z.shiftl_mul_pow2 by lia.
  assert (E : Z.div_eucl (Zpos p * 2 ^ 53) (Zpos p)
              = ((Zpos p * 2 ^ 53) / Zpos p, (Zpos p * 2 ^ 53) mod Zpos p)).
  { unfold Z.div, Z.modulo; destruct (Z.div_eucl _ _); reflexivity. }
  rewrite E, (Z.mul_comm (Zpos p)), Z.div_mul, Z.mod_mul by lia.
  assert (L : new_location (Zpos p) 0 = loc_Exact).
  { unfold new_location, new_location_even, new_location_odd; now destruct (Z.even (Zpos p)). }
  rewrite L; vm_compute; reflexivity.
Qed.

(** C9 (amended): [get_stats] reports the hit rate as the one-decimal
    rendering of the float hits/(hits+misses)*100 followed by ["%"]: the
    value rendered is the exact binary value of that float (the int
    division rounded once to binary64, then multiplied by [100.0]).
    It is ["0.0%"] with label ["baja"] when no get has been counted or none
    hit, ["100.0%"] with label ["alta"] when every get hit, and every get
    adds one to hits+misses; the efficiency label compares the same float:
    ["alta"] above 80, ["media"] above 50, ["baja"] otherwise. *)
Theorem get_stats_hit_rate (memory : string) (c : SmartCache) :
  let s := stats c in
  let r := get_stats memory c in
  hit_rate r = format_1f (hit_rate_value s) ++ "%" /\
  (0 < hits s + misses s ->
     hit_rate_value s = sf_value (rate_float (hits s) (hits s + misses s))) /\
  (hits s + misses s = 0 -> hit_rate r = "0.0%" /\ efficiency r = "baja") /\
  (hits s = 0 -> 0 < misses s -> hit_rate r = "0.0%" /\ efficiency r = "baja") /\
  (misses s = 0 -> 0 < hits s -> hit_rate r = "100.0%" /\ efficiency r = "alta") /\
  (forall gs default,
     hits (stats (run_gets gs default c)) + misses (stats (run_gets gs default c))
     = hits s + misses s + len gs) /\
  efficiency r = (if Qgt_bool (hit_rate_value s) (inject_Z 80) then "alta"
                  else if Qgt_bool (hit_rate_value s) (inject_Z 50) then "media"
                  else "baja").
Proof.
  intros s r.
  split; [reflexivity|].
  split; [|split; [|split; [|split; [|split]]]].
  - intro Hpos; unfold hit_rate_value; fold s.
    replace (0 <? hits s + misses s) with true by (symmetry; apply Z.ltb_lt; exact Hpos).
    reflexivity.
  - intro H0; unfold r, get_stats, hit_rate_value; fold s; rewrite H0; simpl.
    split; reflexivity.
  - intros H0 Hm; unfold r, get_stats, hit_rate_value; fold s; rewrite H0.
    destruct (misses s) as [|pm|pm]; try lia.
    cbn [Z.add Z.ltb Z.compare]; split; reflexivity.
  - intros H0 Hh; unfold r, get_stats, hit_rate_value; fold s; rewrite H0.
    destruct (hits s) as [|ph|ph]; try lia.
    cbn [Z.add Z.ltb Z.compare]; unfold rate_float; rewrite int_truediv_same.
    split; vm_compute; reflexivity.
  - intros gs default; apply run_gets_counts.
  - reflexivity.
Qed.

Lemma get_stats_hit_rate_witness :
  (hits (stats (new_cache 10)) + misses (stats (new_cache 10)) = 0 /\
   hit_rate (get_stats "0 B" (new_cache 10)) = "0.0%") /\
  (0 < hits (stats hits23_misses57) + misses (stats hits23_misses57) /\
   hit_rate_value (stats hits23_misses57) = sf_value (rate_float 23 80)).
Proof.
  split; split.
  - reflexivity.
  - destruct (get_stats_hit_rate "0 B" (new_cache 10)) as (_ & _ & H & _).
    exact (proj1 (H eq_refl)).
  - simpl; lia.
  - destruct (get_stats_hit_rate "0 B" hits23_misses57) as (_ & H & _).
    apply H; simpl; lia.
Defined.

(* ================================================================== *)
(** * The backup archiver (modules/backup.py) *)

(** ** JSON documents and files *)

Inductive json :=
| JNull
| JBool (b : bool)
| JNum (z : Z)
| JStr (s : string)
| JArr (l : list json)
| JObj (l : list (string * json)).

(** Python truthiness of a loaded JSON value ([if data:]). *)
Definition json_truthy (j : json) : bool :=
  match j with
  | JNull => false
  | JBool b => b
  | JNum z => negb (Z.eqb z 0)
  | JStr s => str_truthy s
  | JArr l => negb (Nat.eqb (length l) 0)
  | JObj l => negb (Nat.eqb (length l) 0)
  end.

(** [len(data)] of a loaded JSON value (a table dump is a list of rows);
    [None] when [len] raises [TypeError] ([None], a boolean, a number). *)
Definition json_len (j : json) : option Z :=
  match j with
  | JStr s => Some (Z.of_nat (String.length s))
  | JArr l => Some (len l)
  | JObj l => Some (len l)
  | _ => None
  end.

(** The content of a file: a JSON text, given by the value it encodes, or a
    byte string that is not a JSON text, on which [json.load] raises. *)
Inductive content :=
| JsonText (j : json)
| NotJson (raw : string).

Definition json_load (c : content) : option json :=
  match c with JsonText j => Some j | NotJson _ => None end.

(** A directory tree as its files, by relative path ("a/b.json"); empty
    directories play no role (the archiver only zips files). *)
Definition tree := list (string * content).

(** ** Path helpers *)

Definition strip_prefix (p s : string) : option string :=
  if String.prefix p s
  then Some (substring (String.length p) (String.length s - String.length p) s)
  else None.

Definition ends_with (suf s : string) : bool :=
  let n := String.length s in
  let m := String.length suf in
  Nat.leb m n && String.eqb (substring (n - m) m s) suf.

Definition contains (sub s : string) : bool :=
  match String.index 0 sub s with Some _ => true | None => false end.

Definition has_slash (s : string) : bool := contains "/" s.

(** [Path(p).name]: the part after the last ["/"]. *)
Fixpoint basename_aux (s cur : string) : string :=
  match s with
  | EmptyString => cur
  | String c r =>
      if Ascii.eqb c "/"%char then basename_aux r "" else basename_aux r (cur ++ String c "")
  end.
Definition basename (s : string) : string := basename_aux s "".

(** The index of the last ["."] of [s] ([str.rfind]), if any. *)
Fixpoint rfind_dot (s : string) : option nat :=
  match s with
  | EmptyString => None
  | String c r =>
      match rfind_dot r with
      | Some i => Some (S i)
      | None => if Ascii.eqb c "."%char then Some 0%nat else None
      end
  end.

(** [Path(name).stem] of a file name: the name without its suffix, which
    starts at the last ["."] when that dot is neither the first nor the
    last character ([0 < i < len(name) - 1]); otherwise the whole name. *)
Definition path_stem (name : string) : string :=
  match rfind_dot name with
  | Some i =>
      if Nat.ltb 0 i && Nat.ltb i (String.length name - 1) then substring 0 i name else name
  | None => name
  end.

(** [s.replace(' ', '_')] *)
Fixpoint replace_spaces (s : string) : string :=
  match s with
  | EmptyString => EmptyString
  | String c r => String (if Ascii.eqb c " "%char then "_"%char else c) (replace_spaces r)
  end.

(** The files directly inside directory [dir] ([dir.glob("*")] restricted to
    files), as (name, data). *)
Definition files_in {V} (dir : string) (t : list (string * V)) : list (string * V) :=
  flat_map (fun p => match strip_prefix (dir ++ "/") (fst p) with
                     | Some rest => if has_slash rest then [] else [(rest, snd p)]
                     | None => []
                     end) t.

(** [dir.exists()]: some file lies below [dir]. *)
Definition dir_exists {V} (dir : string) (t : list (string * V)) : bool :=
  existsb (fun p => String.prefix (dir ++ "/") (fst p)) t.

(** ** Backup metadata *)

Record Metadata := mkMeta {
  backup_id : string;
  timestamp : string;
  mtype : string;
  description : string;
  system_info : json;
  contents : list json;
  size_bytes : Z
}.

Definition add_content (m : Metadata) (entry : json) : Metadata :=
  mkMeta (backup_id m) (timestamp m) (mtype m) (description m) (system_info m)
    (contents m ++ [entry])%list (size_bytes m).

Definition set_mtype (m : Metadata) (ty : string) : Metadata :=
  mkMeta (backup_id m) (timestamp m) ty (description m) (system_info m)
    (contents m) (size_bytes m).

(** ** The environment the archiver reads *)

(** A file of the working directory: modification time (seconds), size in
    bytes ([st_size]) and content. *)
Record FileInfo := mkInfo { fmtime : Z; fsize : Z; fcontent : content }.

Record Env := mkEnv {
  database_ok : bool;                 (** [get_database()] returns *)
  db_select : string -> option json;  (** [db.orm.execute('select', table, limit=10000)];
                                          [None] when it raises *)
  cwd : list (string * FileInfo);     (** files below the working directory *)
  loaded_from_env : bool;             (** [config._loaded_from_env] *)
  features : json;                    (** [config.get('features', {})] *)
  zip_size : list (string * content) -> Z  (** [st_size] of a written zip *)
}.

Record BackupConfig := mkBConfig {
  include_database : bool;
  include_configs : bool;
  include_logs : bool;
  include_wilo_data : bool;
  include_images : bool;
  max_backup_size_mb : Z
}.

Definition default_backup_config : BackupConfig := mkBConfig true true true true false 500.

(** A file of the backup directory. *)
Record BackupFile := mkBFile {
  bname : string;
  bmtime : Z;
  barchive : list (string * content)
}.

(** The state of the archiver: the files of [backup_dir], the directory
    [backup_dir/restore_temp] ([None] when absent), [max_backups] and
    [backup_config]. *)
Record BackupSystem := mkSystem {
  backups : list BackupFile;
  restore_temp : option tree;
  max_backups : Z;
  backup_config : BackupConfig
}.

(** [BackupSystem.__init__] on an empty backup directory. *)
Definition new_backup_system : BackupSystem := mkSystem [] None 10 default_backup_config.

Definition with_backups (s : BackupSystem) (d : list BackupFile) : BackupSystem :=
  mkSystem d (restore_temp s) (max_backups s) (backup_config s).

Definition with_temp (s : BackupSystem) (t : option tree) : BackupSystem :=
  mkSystem (backups s) t (max_backups s) (backup_config s).

Definition cwd_tree (env : Env) : tree := map (fun p => (fst p, fcontent (snd p))) (cwd env).

(** ** Capture of the working directory into the temporary tree *)

(** [_create_metadata] *)
Definition create_metadata (env : Env) (stamp iso ty desc : string) : Metadata :=
  mkMeta stamp iso ty desc
    (JObj [("version", JStr "2.0");
           ("config_source", JStr (if loaded_from_env env then "env" else "file"));
           ("features_enabled", features env)])
    [] 0.

Definition tables : list string :=
  ["daily_kpis"; "trabajadores"; "guide_stores"; "guide_senders"; "guide_logs";
   "distribuciones_semanales"].

(** The schema file, from the value [last] of the variable [data] after the
    loop ([None] while unbound: every [select] raised). The comprehension
    [{table: len(data) for table in tables if 'data' in locals()}] sees
    [data] among its [locals()] once it is bound, so every table gets
    [len(data)] of the last result; [None] when that [len] raises. *)
Definition schema_info (iso : string) (last : option json) : option json :=
  let mk rc := JObj [("tables", JArr (map JStr tables)); ("backup_timestamp", JStr iso);
                     ("row_counts", JObj rc)] in
  match last with
  | None => Some (mk [])
  | Some data =>
      match json_len data with
      | Some n => Some (mk (map (fun table => (table, JNum n)) tables))
      | None => None
      end
  end.

(** The dump of one table: [json.dump] writes the file, then [len(data)]
    for the metadata entry may raise, which the loop logs and skips. *)
Definition dump_table (table : string) (data : json) (tm : tree * Metadata) : tree * Metadata :=
  if json_truthy data then
    let t := dict_set ("database/" ++ table ++ ".json") (JsonText data) (fst tm) in
    match json_len data with
    | Some n =>
        (t, add_content (snd tm)
              (JObj [("type", JStr "database"); ("table", JStr table);
                     ("rows", JNum n); ("file", JStr (table ++ ".json"))]))
    | None => (t, snd tm)
    end
  else tm.

(** One iteration of the loop over [tables]: a [select] that raises leaves
    [data] as it was. *)
Definition db_step (env : Env) (acc : (tree * Metadata) * option json) (table : string)
  : (tree * Metadata) * option json :=
  let '(tm, last) := acc in
  match db_select env table with
  | Some data => (dump_table table data tm, Some data)
  | None => (tm, last)
  end.

(** [_backup_database]: an exception of [get_database()] or of the schema
    comprehension is caught by the outer [except]; what was written stays. *)
Definition backup_database (env : Env) (iso : string) (tm : tree * Metadata)
  : tree * Metadata :=
  if database_ok env then
    let '(tm', last) := fold_left (db_step env) tables (tm, None) in
    match schema_info iso last with
    | Some schema => (dict_set "database/schema_info.json" (JsonText schema) (fst tm'), snd tm')
    | None => tm'
    end
  else tm.

Definition config_files : list string :=
  ["config.json"; ".env"; "data_wilo/email_config.json"; "data_wilo/gemini_config.json";
   "data_wilo/novedades_database.json"].

(** [_backup_configs] *)
Definition backup_configs (env : Env) (tm : tree * Metadata) : tree * Metadata :=
  fold_left
    (fun acc path =>
       match dict_get path (cwd env) with
       | Some fi =>
           (dict_set ("config/" ++ basename path) (fcontent fi) (fst acc),
            add_content (snd acc)
              (JObj [("type", JStr "config"); ("file", JStr (basename path));
                     ("size", JNum (fsize fi))]))
       | None => acc
       end)
    config_files tm.

(** [_backup_wilo_data]: [copytree] of [data_wilo] into [wilo_data]. *)
Definition backup_wilo_data (env : Env) (tm : tree * Metadata) : tree * Metadata :=
  if dir_exists "data_wilo" (cwd env) then
    let files := flat_map (fun p => match strip_prefix "data_wilo/" (fst p) with
                                    | Some rest => [(rest, snd p)]
                                    | None => []
                                    end) (cwd_tree env) in
    (fold_left (fun t p => dict_set ("wilo_data/" ++ fst p) (snd p) t) files (fst tm),
     add_content (snd tm)
       (JObj [("type", JStr "wilo_data"); ("directory", JStr "data_wilo");
              ("file_count", JNum (len files))]))
  else tm.

(** [_backup_logs]: the [*.log] files of [logs] modified in the last seven
    days ([now] in seconds). *)
Definition backup_logs (env : Env) (now : Z) (tm : tree * Metadata) : tree * Metadata :=
  if dir_exists "logs" (cwd env) then
    let recent := filter (fun p => ends_with ".log" (fst p) && Z.ltb (now - 7 * 86400) (fmtime (snd p)))
                    (files_in "logs" (cwd env)) in
    (fold_left (fun t p => dict_set ("logs/" ++ fst p) (fcontent (snd p)) t) recent (fst tm),
     add_content (snd tm)
       (JObj [("type", JStr "logs"); ("directory", JStr "logs");
              ("files_copied", JNum (len recent)); ("days", JNum 7)]))
  else tm.

(** [_backup_images]: files of [images] matching [*logo*], then those
    matching [*brand*]. *)
Definition backup_images (env : Env) (tm : tree * Metadata) : tree * Metadata :=
  if dir_exists "images" (cwd env) then
    let imgs := files_in "images" (cwd_tree env) in
    let logo_files := (filter (fun p => contains "logo" (fst p)) imgs
                       ++ filter (fun p => contains "brand" (fst p)) imgs)%list in
    match logo_files with
    | [] => tm
    | _ =>
        (fold_left (fun t p => dict_set ("images/" ++ fst p) (snd p) t) logo_files (fst tm),
         add_content (snd tm)
           (JObj [("type", JStr "images"); ("directory", JStr "images");
                  ("files_copied", JNum (len logo_files))]))
    end
  else tm.

(** [_full_backup] *)
Definition full_backup (cfg : BackupConfig) (env : Env) (iso : string) (now : Z)
    (tm : tree * Metadata) : tree * Metadata :=
  let tm := if include_database cfg then backup_database env iso tm else tm in
  let tm := if include_configs cfg then backup_configs env tm else tm in
  let tm := if include_wilo_data cfg then backup_wilo_data env tm else tm in
  let tm := if include_logs cfg then backup_logs env now tm else tm in
  if include_images cfg then backup_images env tm else tm.

(** ** Archive, retention and create_backup *)

(** A stable insertion sort on modification time ([sort(key=st_mtime)]). *)
Fixpoint insert_mtime (f : BackupFile) (l : list BackupFile) : list BackupFile :=
  match l with
  | [] => [f]
  | g :: r => if Z.leb (bmtime f) (bmtime g) then f :: g :: r else g :: insert_mtime f r
  end.

Fixpoint sort_mtime (l : list BackupFile) : list BackupFile :=
  match l with
  | [] => []
  | f :: r => insert_mtime f (sort_mtime r)
  end.

(** [backup_dir.glob("backup_*.zip")] *)
Definition is_backup_name (s : string) : bool :=
  String.prefix "backup_" s && ends_with ".zip" s && Nat.leb 11 (String.length s).

(** Writing a file of the backup directory (an existing one is overwritten
    in place). *)
Fixpoint dir_write (n : string) (mt : Z) (a : list (string * content))
    (d : list BackupFile) : list BackupFile :=
  match d with
  | [] => [mkBFile n mt a]
  | f :: r => if String.eqb (bname f) n then mkBFile n mt a :: r else f :: dir_write n mt a r
  end.

(** [unlink] *)
Definition dir_remove (n : string) (d : list BackupFile) : list BackupFile :=
  filter (fun f => negb (String.eqb (bname f) n)) d.

(** The archives [_clean_old_backups] deletes: the oldest
    [len(backup_files) - max_backups] ones. *)
Definition files_to_delete (max_b : Z) (d : list BackupFile) : list BackupFile :=
  let backup_files := filter (fun f => is_backup_name (bname f)) d in
  if Z.leb (len backup_files) max_b then []
  else firstn (Z.to_nat (len backup_files - max_b)) (sort_mtime backup_files).

(** [_clean_old_backups] *)
Definition clean_old_backups (max_b : Z) (d : list BackupFile) : list BackupFile :=
  fold_left (fun d f => dir_remove (bname f) d) (files_to_delete max_b d) d.

(** [_compress_backup]: every file of the working tree, then, if the tree
    holds a [metadata.json], that metadata with its size, appended. *)
Definition compress_backup (env : Env) (t : tree) : option (list (string * content)) :=
  let archive := t in
  match dict_get "metadata.json" t with
  | None => Some archive
  | Some c =>
      match json_load c with
      | Some (JObj fields) =>
          Some (archive ++
                [("metadata.json",
                  JsonText (JObj (dict_set "compressed" (JBool true)
                                    (dict_set "size_bytes" (JNum (zip_size env archive)) fields))))])%list
      | _ => None
      end
  end.

(** [backup_name] as built by [create_backup]. *)
Definition backup_name (ty desc stamp : string) : string :=
  "backup_" ++ ty ++ "_" ++ stamp
  ++ (if str_truthy desc then "_" ++ replace_spaces (substring 0 50 desc) else "").

(** The working tree and metadata per [backup_type]; [None] is the
    [ValueError] of an unsupported type. *)
Definition populate (cfg : BackupConfig) (env : Env) (iso : string) (now : Z)
    (ty : string) (tm : tree * Metadata) : option (tree * Metadata) :=
  if String.eqb ty "full" then Some (full_backup cfg env iso now tm)
  else if String.eqb ty "database_only" then Some (backup_database env iso tm)
  else if String.eqb ty "incremental" then
    let (t, m) := full_backup cfg env iso now tm in Some (t, set_mtype m "incremental")
  else None.

(** The archive written by [create_backup] ([None] when it fails). *)
Definition build_archive (cfg : BackupConfig) (env : Env) (stamp iso : string) (now : Z)
    (ty desc : string) : option (list (string * content)) :=
  let metadata := create_metadata env stamp iso ty desc in
  match populate cfg env iso now ty ([], metadata) with
  | Some (t, _) => compress_backup env t
  | None => None
  end.

(** A file name [open] cannot create directly in [backup_dir]: a ["/"]
    puts it in a subdirectory, which does not exist (the backup directory
    holds only files besides [temp] and [restore_temp]), and a NUL byte
    makes the path invalid. *)
Definition bad_path (name : string) : bool :=
  has_slash name || contains (String Ascii.zero EmptyString) name.

(** [create_backup(backup_type, description)] at the time [now] (seconds),
    whose [strftime("%Y%m%d_%H%M%S")] is [stamp] and [isoformat()] is [iso]:
    the name of the archive returned (or [None]) and the state after. Any
    exception leads to the [except] branch, which unlinks [backup_file] if
    it exists; an archive the retention deleted makes the final
    [backup_file.stat()] raise, after which nothing is left to unlink. *)
Definition create_backup (sys : BackupSystem) (env : Env) (stamp iso : string) (now : Z)
    (ty desc : string) : option string * BackupSystem :=
  let backup_file := backup_name ty desc stamp ++ ".zip" in
  match (if bad_path backup_file then None
         else build_archive (backup_config sys) env stamp iso now ty desc) with
  | Some archive =>
      let d := clean_old_backups (max_backups sys)
                 (dir_write backup_file now archive (backups sys)) in
      if existsb (fun f => String.eqb (bname f) backup_file) d
      then (Some backup_file, with_backups sys d)
      else (None, with_backups sys d)
  | None => (None, with_backups sys (dir_remove backup_file (backups sys)))
  end.

(** ** restore_backup *)

(** What a restore does outside the archiver: a [bulk_upsert] of a table,
    or the copy of a configuration file into the working directory. *)
Inductive Effect :=
| Upsert (table : string) (rows : json)
| CopyConfig (name : string) (c : content).

(** [zipf.extractall(temp_dir)]: members are written over what the directory
    already holds; an archive without members creates nothing. *)
Definition extract_all (archive : list (string * content)) (t : option tree) : option tree :=
  match archive with
  | [] => t
  | _ => Some (fold_left (fun acc p => dict_set (fst p) (snd p) acc) archive
                 (match t with Some x => x | None => [] end))
  end.

(** [_restore_database] on the extracted tree, where [get_database()]
    returns exactly when [db_ok]; [None] is the exception it raises, which
    reaches the [except] of [restore_backup]. [db_dir.glob("*.json")] also
    lists names starting with a dot; a failed load of one table is logged
    and skipped. *)
Definition restore_database (db_ok : bool) (t : tree) : option (list Effect) :=
  if dir_exists "database" t then
    if db_ok then
      Some (flat_map (fun p =>
                if ends_with ".json" (fst p) && negb (String.eqb (fst p) "schema_info.json") then
                  match json_load (snd p) with
                  | Some data => if json_truthy data then [Upsert (path_stem (fst p)) data] else []
                  | None => []
                  end
                else [])
              (files_in "database" t))
    else None
  else Some [].

(** [_restore_configs]: the entries of [config] are copied; a subdirectory
    makes [copy2] raise and is skipped. *)
Definition restore_configs (t : tree) : list Effect :=
  if dir_exists "config" t then map (fun p => CopyConfig (fst p) (snd p)) (files_in "config" t)
  else [].

(** [restore_backup(backup_file, restore_type)], with [get_database()]
    returning exactly when [db_ok]: the flag returned, the effects
    performed, and the state after. *)
Definition restore_backup (archive : list (string * content)) (restore_type : string)
    (db_ok : bool) (sys : BackupSystem) : bool * list Effect * BackupSystem :=
  let t := extract_all archive (restore_temp sys) in
  let files := match t with Some x => x | None => [] end in
  match dict_get "metadata.json" files with
  | None =>
      if dir_exists "metadata.json" files
      then (false, [], with_temp sys None)   (* open() on a directory raises *)
      else (false, [], with_temp sys t)      (* return False *)
  | Some c =>
      match json_load c with
      | Some (JObj _) =>
          match (if String.eqb restore_type "full" || String.eqb restore_type "database_only"
                 then restore_database db_ok files else Some []) with
          | Some e1 =>
              let e2 := if String.eqb restore_type "full" || String.eqb restore_type "configs_only"
                        then restore_configs files else [] in
              (true, (e1 ++ e2)%list, with_temp sys None)
          | None => (false, [], with_temp sys None)  (* get_database() raises *)
          end
      | _ => (false, [], with_temp sys None)  (* json.load or metadata.get raises *)
      end
  end.

(* ------------------------------------------------------------------ *)
(** ** Retention lemmas *)

Definition mtime_le (f g : BackupFile) : Prop := bmtime f <= bmtime g.

Definition count_backups (d : list BackupFile) : Z :=
  len (filter (fun f => is_backup_name (bname f)) d).

Lemma insert_mtime_perm (f : BackupFile) (l : list BackupFile) :
  Permutation (insert_mtime f l) (f :: l).
Proof.
  induction l as [|g r IH]; simpl; [reflexivity|].
  destruct (bmtime f <=? bmtime g); [reflexivity|].
  rewrite IH; apply perm_swap.
Qed.

Lemma sort_mtime_perm (l : list BackupFile) : Permutation (sort_mtime l) l.
Proof.
  induction l as [|f r IH]; simpl; [reflexivity|].
  rewrite insert_mtime_perm; now apply perm_skip.
Qed.

Lemma insert_mtime_sorted (f : BackupFile) (l : list BackupFile) :
  Sorted mtime_le l -> Sorted mtime_le (insert_mtime f l).
Proof.
  induction 1 as [|g r Hs IH Hhd]; simpl.
  - repeat constructor.
  - destruct (bmtime f <=? bmtime g) eqn:E.
    + apply Z.leb_le in E; constructor; [constructor; assumption|constructor; exact E].
    + apply Z.leb_gt in E; constructor; [exact IH|].
      destruct r as [|h r']; simpl.
      * constructor; unfold mtime_le; lia.
      * inversion Hhd; subst.
        destruct (bmtime f <=? bmtime h); constructor; unfold mtime_le in *; lia.
Qed.

Lemma sort_mtime_sorted (l : list BackupFile) : StronglySorted mtime_le (sort_mtime l).
Proof.
  apply Sorted_StronglySorted; [intros x y z; unfold mtime_le; lia|].
  induction l as [|f r IH]; simpl; [constructor|].
  now apply insert_mtime_sorted.
Qed.

Lemma strongly_sorted_app {A} (R : A -> A -> Prop) (l1 l2 : list A) :
  StronglySorted R (l1 ++ l2) -> forall x y, In x l1 -> In y l2 -> R x y.
Proof.
  induction l1 as [|a r IH]; simpl; [tauto|].
  intros Hs x y Hx Hy; apply StronglySorted_inv in Hs as [Hs Hf].
  destruct Hx as [<-|Hx].
  - rewrite Forall_forall in Hf; apply Hf, in_or_app; now right.
  - now apply IH.
Qed.

Lemma nodup_map_same {A B} (g : A -> B) (l : list A) (x y : A) :
  NoDup (map g l) -> In x l -> In y l -> g x = g y -> x = y.
Proof.
  induction l as [|a r IH]; simpl; [tauto|].
  intros Hnd Hx Hy Heq; inversion Hnd as [|? ? Ha Hr]; subst.
  destruct Hx as [<-|Hx], Hy as [<-|Hy]; try reflexivity.
  - exfalso; apply Ha; rewrite Heq; now apply in_map.
  - exfalso; apply Ha; rewrite <- Heq; now apply in_map.
  - now apply IH.
Qed.

Lemma nodup_map_filter {A B} (g : A -> B) (p : A -> bool) (l : list A) :
  NoDup (map g l) -> NoDup (map g (filter p l)).
Proof.
  induction l as [|a r IH]; simpl; [tauto|].
  intro Hnd; inversion Hnd as [|? ? Ha Hr]; subst.
  destruct (p a); simpl; [|now apply IH].
  constructor; [|now apply IH].
  intro Hin; apply Ha.
  apply in_map_iff in Hin as [b [Hb Hin]]; apply filter_In in Hin as [Hin _].
  rewrite <- Hb; now apply in_map.
Qed.

Lemma nodup_app_disjoint {A} (l1 l2 : list A) (x : A) :
  NoDup (l1 ++ l2) -> In x l1 -> In x l2 -> False.
Proof.
  induction l1 as [|a r IH]; simpl; [tauto|].
  intros Hnd Hx Hy; inversion Hnd as [|? ? Ha Hr]; subst.
  destruct Hx as [<-|Hx]; [apply Ha, in_or_app; now right|now apply IH].
Qed.

Lemma perm_filter_length {A} (p : A -> bool) (l l' : list A) :
  Permutation l l' -> length (filter p l) = length (filter p l').
Proof.
  induction 1 as [| x l l' _ IH | x y l | l l' l'' _ IH1 _ IH2]; simpl.
  - reflexivity.
  - destruct (p x); simpl; lia.
  - destruct (p x), (p y); simpl; lia.
  - lia.
Qed.

Lemma fold_dir_remove (del d : list BackupFile) :
  fold_left (fun d f => dir_remove (bname f) d) del d
  = filter (fun f => negb (existsb (String.eqb (bname f)) (map bname del))) d.
Proof.
  revert d; induction del as [|h del IH]; intro d; simpl.
  - induction d as [|x r IHd]; simpl; [reflexivity|now rewrite <- IHd].
  - rewrite IH; unfold dir_remove.
    induction d as [|x r IHd]; simpl; [reflexivity|].
    destruct (String.eqb (bname x) (bname h)); simpl; [exact IHd|].
    destruct (existsb (String.eqb (bname x)) (map bname del)); simpl;
      [exact IHd|now rewrite IHd].
Qed.

Lemma filter_twice_gen {A} (f g : A -> bool) (l : list A) :
  filter g (filter f l) = filter (fun x => f x && g x) l.
Proof.
  induction l as [|x r IH]; simpl; [reflexivity|].
  destruct (f x); simpl; [destruct (g x)|]; simpl; now rewrite IH.
Qed.

Lemma filter_all_false {A} (p : A -> bool) (l : list A) :
  (forall x, In x l -> p x = false) -> filter p l = [].
Proof.
  induction l as [|x r IH]; simpl; intro H; [reflexivity|].
  rewrite (H x (or_introl eq_refl)); apply IH; auto.
Qed.

Lemma filter_all_true {A} (p : A -> bool) (l : list A) :
  (forall x, In x l -> p x = true) -> filter p l = l.
Proof.
  induction l as [|x r IH]; simpl; intro H; [reflexivity|].
  rewrite (H x (or_introl eq_refl)), IH; auto.
Qed.

(** [_clean_old_backups] on a directory (distinct file names) holding more
    than [max_backups >= 0] archives: exactly [max_backups] archives remain,
    nothing is added, and every file deleted is an archive no newer than any
    archive kept. *)
Lemma clean_old_backups_spec (max_b : Z) (d : list BackupFile) :
  0 <= max_b -> NoDup (map bname d) -> max_b < count_backups d ->
  count_backups (clean_old_backups max_b d) = max_b /\
  (forall f, In f (clean_old_backups max_b d) -> In f d) /\
  (forall f, In f d -> ~ In f (clean_old_backups max_b d) ->
     is_backup_name (bname f) = true /\
     forall g, In g (clean_old_backups max_b d) -> is_backup_name (bname g) = true ->
               bmtime f <= bmtime g).
Proof.
  intros Hmax Hnd Hcnt.
  unfold count_backups in Hcnt.
  unfold clean_old_backups, files_to_delete.
  set (isb := fun f => is_backup_name (bname f)) in *.
  set (bf := filter isb d) in *.
  replace (len bf <=? max_b) with false by (symmetry; apply Z.leb_gt; lia).
  set (s := sort_mtime bf).
  set (k := Z.to_nat (len bf - max_b)).
  set (del := firstn k s).
  set (rest := skipn k s).
  rewrite fold_dir_remove.
  set (notdel := fun f => negb (existsb (String.eqb (bname f)) (map bname del))).
  assert (Hs : s = (del ++ rest)%list) by (symmetry; apply firstn_skipn).
  assert (Hperm : Permutation s bf) by apply sort_mtime_perm.
  assert (Hnd_s : NoDup (map bname s)).
  { apply (Permutation_NoDup (Permutation_map bname (Permutation_sym Hperm))).
    now apply nodup_map_filter. }
  assert (Hdel : forall f, In f del -> notdel f = false).
  { intros f Hf; unfold notdel; apply negb_false_iff, existsb_exists.
    exists (bname f); split; [now apply in_map|apply String.eqb_refl]. }
  assert (Hrest : forall f, In f rest -> notdel f = true).
  { intros f Hf; unfold notdel; apply negb_true_iff, Bool.not_true_iff_false.
    intro Hex; apply existsb_exists in Hex as [x [Hx Heq]].
    apply String.eqb_eq in Heq; subst x.
    rewrite Hs, map_app in Hnd_s.
    apply (nodup_app_disjoint _ _ (bname f) Hnd_s Hx); now apply in_map. }
  assert (Hin_s : forall f, In f s -> In f d /\ isb f = true).
  { intros f Hf; apply (Permutation_in _ Hperm) in Hf; now apply filter_In in Hf. }
  split; [|split].
  - unfold count_backups, len.
    rewrite filter_twice_gen.
    rewrite (filter_ext (fun x => notdel x && isb x) (fun x => isb x && notdel x))
      by (intro; apply andb_comm).
    rewrite <- filter_twice_gen; fold bf.
    rewrite (perm_filter_length _ _ _ (Permutation_sym Hperm)), Hs, filter_app.
    rewrite (filter_all_false _ _ Hdel), (filter_all_true _ _ Hrest); simpl.
    unfold rest; rewrite length_skipn, (Permutation_length Hperm).
    unfold k, len in *.
    assert (Hk : Z.of_nat (Z.to_nat (Z.of_nat (length bf) - max_b))
                 = Z.of_nat (length bf) - max_b) by (apply Z2Nat.id; lia).
    rewrite Nat2Z.inj_sub by lia; lia.
  - intros f Hf; now apply filter_In in Hf.
  - intros f Hf Hnot.
    assert (Hnf : notdel f = false).
    { destruct (notdel f) eqn:E; [|reflexivity].
      exfalso; apply Hnot, filter_In; now split. }
    unfold notdel in Hnf; apply negb_false_iff, existsb_exists in Hnf as [x [Hx Heq]].
    apply String.eqb_eq in Heq; subst x.
    apply in_map_iff in Hx as [h [Hh Hhdel]].
    assert (Hhs : In h s) by (rewrite Hs; apply in_or_app; now left).
    destruct (Hin_s h Hhs) as [Hhd Hhb].
    assert (h = f) by (apply (nodup_map_same bname d); auto).
    subst h; split; [exact Hhb|].
    intros g Hg Hgb; apply filter_In in Hg as [Hgd Hgn].
    assert (Hgs : In g s).
    { apply (Permutation_in _ (Permutation_sym Hperm)), filter_In; now split. }
    rewrite Hs in Hgs; apply in_app_or in Hgs as [Hgs|Hgs].
    + rewrite (Hdel g Hgs) in Hgn; discriminate.
    + apply (strongly_sorted_app mtime_le del rest); auto.
      rewrite <- Hs; apply sort_mtime_sorted.
Qed.

(* ------------------------------------------------------------------ *)
(** ** Concrete inputs for the backup claims *)

Definition kpi_rows : json := JArr [JObj [("id", JNum 1); ("fecha", JStr "2026-10-13")]].

(** A database in which only [daily_kpis] has rows (the other tables are
    empty), and an empty working directory. *)
Definition db_env : Env :=
  mkEnv true (fun t => if String.eqb t "daily_kpis" then Some kpi_rows else Some (JArr []))
    [] false (JObj []) (fun _ => 2048).

Definition iso0 : string := "2026-10-14T02:00:00".

(** The schema file of a database backup of [db_env]: the last [select]
    ([distribuciones_semanales]) returned no rows, so [row_counts] gives 0
    for every table, [daily_kpis] included. *)
Definition db_env_schema : json :=
  JObj [("tables", JArr (map JStr tables)); ("backup_timestamp", JStr iso0);
        ("row_counts", JObj (map (fun table => (table, JNum 0)) tables))].

(** [create_backup("full", "")] at successive times with the given stamps. *)
Definition create_full_seq (sys : BackupSystem) (steps : list (string * Z)) : BackupSystem :=
  fold_left (fun s p => snd (create_backup s db_env (fst p) iso0 (snd p) "full" "")) steps sys.

(** A backup directory with [max_backups = 3]. *)
Definition system3 : BackupSystem := mkSystem [] None 3 default_backup_config.

Definition four_distinct : list (string * Z) :=
  [("20261014_020001", 1); ("20261014_020002", 2); ("20261014_020003", 3);
   ("20261014_020004", 4)].

Definition four_same_second : list (string * Z) :=
  [("20261014_020000", 1); ("20261014_020000", 2); ("20261014_020000", 3);
   ("20261014_020000", 4)].

(* ------------------------------------------------------------------ *)
(** ** No capture step writes [metadata.json] *)

Lemma dict_get_set_other {V} (k k' : string) (v : V) (d : list (string * V)) :
  k <> k' -> dict_get k (dict_set k' v d) = dict_get k d.
Proof.
  intro Hne; induction d as [|[k2 v2] r IH]; simpl.
  - apply String.eqb_neq in Hne; now rewrite Hne.
  - destruct (String.eqb k' k2) eqn:E; simpl.
    + apply String.eqb_eq in E; subst k2.
      now apply String.eqb_neq in Hne; rewrite Hne.
    + now destruct (String.eqb k k2).
Qed.

Lemma dict_get_none_not_in {V} (k : string) (d : list (string * V)) :
  dict_get k d = None -> ~ In k (map fst d).
Proof.
  induction d as [|[k2 v2] r IH]; simpl; [tauto|].
  destruct (String.eqb k k2) eqn:E; [discriminate|].
  intros Hr [Heq|Hin]; [subst; now rewrite String.eqb_refl in E|now apply IH].
Qed.

Lemma fold_pres {A B} (Q : B -> Prop) (f : B -> A -> B) (l : list A) (b : B) :
  Q b -> (forall b a, Q b -> Q (f b a)) -> Q (fold_left f l b).
Proof.
  revert b; induction l as [|a r IH]; intros b Hb Hf; simpl; [exact Hb|].
  apply IH; auto.
Qed.

(** The working tree holds no [metadata.json]. *)
Definition no_meta (tm : tree * Metadata) : Prop := dict_get "metadata.json" (fst tm) = None.

Ltac set_other := rewrite dict_get_set_other by (cbn; discriminate).

Lemma fold_copy_no_meta (pre : string) (files : list (string * content)) (t : tree) :
  (forall x, "metadata.json" <> pre ++ x) ->
  dict_get "metadata.json" t = None ->
  dict_get "metadata.json" (fold_left (fun t p => dict_set (pre ++ fst p) (snd p) t) files t)
  = None.
Proof.
  intros Hpre Ht.
  apply (fold_pres (fun t => dict_get "metadata.json" t = None)); [exact Ht|].
  intros t0 [p c] H0; simpl.
  rewrite dict_get_set_other; [exact H0|apply Hpre].
Qed.

(** The value of [data] after the loop of [_backup_database]: the result
    of the last [select] that did not raise. *)
Definition last_data (env : Env) : option json :=
  fold_left (fun last table => match db_select env table with Some d => Some d | None => last end)
    tables None.

Lemma db_fold_last (env : Env) (l : list string) (tm : tree * Metadata) (last : option json) :
  snd (fold_left (db_step env) l (tm, last))
  = fold_left (fun last table => match db_select env table with Some d => Some d | None => last end)
      l last.
Proof.
  revert tm last; induction l as [|x r IH]; intros tm last; simpl; [reflexivity|].
  destruct (db_select env x); apply IH.
Qed.

Lemma db_fold_pres (P : tree * Metadata -> Prop) (env : Env) (l : list string)
    (tm : tree * Metadata) (last : option json) :
  P tm -> (forall table data tm, P tm -> P (dump_table table data tm)) ->
  P (fst (fold_left (db_step env) l (tm, last))).
Proof.
  intros H0 Hd; revert tm last H0; induction l as [|x r IH]; intros tm last H0; simpl; [exact H0|].
  destruct (db_select env x); apply IH; auto.
Qed.

(** [backup_database] is the fold of [db_step], then the schema file. *)
Lemma backup_database_eq (env : Env) (iso : string) (tm : tree * Metadata) :
  database_ok env = true ->
  backup_database env iso tm
  = match schema_info iso (last_data env) with
    | Some schema =>
        (dict_set "database/schema_info.json" (JsonText schema)
           (fst (fst (fold_left (db_step env) tables (tm, None)))),
         snd (fst (fold_left (db_step env) tables (tm, None))))
    | None => fst (fold_left (db_step env) tables (tm, None))
    end.
Proof.
  intro Hok; unfold backup_database; rewrite Hok; unfold last_data.
  rewrite <- (db_fold_last env tables tm None).
  destruct (fold_left (db_step env) tables (tm, None)) as [tm' last]; reflexivity.
Qed.

Lemma dump_table_no_meta (table : string) (data : json) (tm : tree * Metadata) :
  no_meta tm -> no_meta (dump_table table data tm).
Proof.
  intro H; unfold dump_table; destruct (json_truthy data); [|exact H].
  unfold no_meta in *; destruct (json_len data); cbn [fst]; set_other; exact H.
Qed.

Lemma backup_database_no_meta (env : Env) (iso : string) (tm : tree * Metadata) :
  no_meta tm -> no_meta (backup_database env iso tm).
Proof.
  intro H; destruct (database_ok env) eqn:Hok; [|unfold backup_database; rewrite Hok; exact H].
  rewrite backup_database_eq by exact Hok.
  assert (Hf : no_meta (fst (fold_left (db_step env) tables (tm, None))))
    by (apply db_fold_pres; [exact H|apply dump_table_no_meta]).
  destruct (schema_info iso (last_data env)); [|exact Hf].
  unfold no_meta in *; cbn [fst]; set_other; exact Hf.
Qed.

Lemma backup_configs_no_meta (env : Env) (tm : tree * Metadata) :
  no_meta tm -> no_meta (backup_configs env tm).
Proof.
  intro H; unfold backup_configs; apply fold_pres; [exact H|].
  intros [t m] path Hb; unfold no_meta in *; simpl.
  destruct (dict_get path (cwd env)); simpl; [set_other|]; exact Hb.
Qed.

Lemma backup_wilo_data_no_meta (env : Env) (tm : tree * Metadata) :
  no_meta tm -> no_meta (backup_wilo_data env tm).
Proof.
  intro H; unfold backup_wilo_data; destruct (dir_exists _ _); [|exact H].
  unfold no_meta; cbn [fst]; apply fold_copy_no_meta; [intro x; cbn; discriminate|exact H].
Qed.

Lemma backup_logs_no_meta (env : Env) (now : Z) (tm : tree * Metadata) :
  no_meta tm -> no_meta (backup_logs env now tm).
Proof.
  intro H; unfold backup_logs; destruct (dir_exists _ _); [|exact H].
  unfold no_meta; simpl.
  apply (fold_pres (fun t => dict_get "metadata.json" t = None)); [exact H|].
  intros t0 [p c] H0; simpl; set_other; exact H0.
Qed.

Lemma backup_images_no_meta (env : Env) (tm : tree * Metadata) :
  no_meta tm -> no_meta (backup_images env tm).
Proof.
  intro H; unfold backup_images; destruct (dir_exists _ _); [|exact H].
  destruct (_ ++ _)%list; [exact H|].
  unfold no_meta; cbn [fst]; apply fold_copy_no_meta; [intro x; cbn; discriminate|exact H].
Qed.

Lemma full_backup_no_meta (cfg : BackupConfig) (env : Env) (iso : string) (now : Z)
    (tm : tree * Metadata) :
  no_meta tm -> no_meta (full_backup cfg env iso now tm).
Proof.
  intro H; unfold full_backup.
  destruct (include_database cfg), (include_configs cfg), (include_wilo_data cfg),
    (include_logs cfg), (include_images cfg);
    repeat first [ apply backup_images_no_meta | apply backup_logs_no_meta
                 | apply backup_wilo_data_no_meta | apply backup_configs_no_meta
                 | apply backup_database_no_meta | exact H ].
Qed.

Lemma build_archive_no_meta (cfg : BackupConfig) (env : Env) (stamp iso : string) (now : Z)
    (ty desc : string) :
  match build_archive cfg env stamp iso now ty desc with
  | Some archive => ~ In "metadata.json" (map fst archive)
  | None => True
  end.
Proof.
  unfold build_archive, populate.
  set (tm0 := ([] : tree, create_metadata env stamp iso ty desc)).
  assert (H0 : no_meta tm0) by reflexivity.
  assert (Hp : forall tm, no_meta tm ->
            match compress_backup env (fst tm) with
            | Some archive => ~ In "metadata.json" (map fst archive)
            | None => True end).
  { intros [t m] Ht; unfold no_meta in Ht; simpl in *; unfold compress_backup; rewrite Ht.
    now apply dict_get_none_not_in. }
  destruct (String.eqb ty "full").
  { destruct (full_backup cfg env iso now _) as [t m] eqn:E.
    apply (Hp (t, m)); rewrite <- E; now apply full_backup_no_meta. }
  destruct (String.eqb ty "database_only").
  { destruct (backup_database env iso _) as [t m] eqn:E.
    apply (Hp (t, m)); rewrite <- E; now apply backup_database_no_meta. }
  destruct (String.eqb ty "incremental"); [|exact I].
  destruct (full_backup cfg env iso now _) as [t m] eqn:E.
  apply (Hp (t, set_mtype m "incremental")).
  assert (Hf : no_meta (full_backup cfg env iso now ([], create_metadata env stamp iso ty desc)))
    by (apply full_backup_no_meta; reflexivity).
  rewrite E in Hf; exact Hf.
Qed.

(* ------------------------------------------------------------------ *)
(** ** Restore and directory lemmas *)



Lemma dir_write_names (n : string) (mt : Z) (a : list (string * content)) (d : list BackupFile) :
  map bname (dir_write n mt a d)
  = if existsb (String.eqb n) (map bname d) then map bname d else (map bname d ++ [n])%list.
Proof.
  induction d as [|f r IH]; simpl; [reflexivity|].
  rewrite (String.eqb_sym n (bname f)).
  destruct (String.eqb (bname f) n) eqn:E; simpl.
  - apply String.eqb_eq in E; now subst.
  - rewrite IH; now destruct (existsb (String.eqb n) (map bname r)).
Qed.

Lemma dir_write_nodup (n : string) (mt : Z) (a : list (string * content)) (d : list BackupFile) :
  NoDup (map bname d) -> NoDup (map bname (dir_write n mt a d)).
Proof.
  intro Hnd; rewrite dir_write_names.
  destruct (existsb (String.eqb n) (map bname d)) eqn:E; [exact Hnd|].
  apply NoDup_app; [exact Hnd|repeat constructor; simpl; tauto|].
  intros x Hx [Hxn|[]]; subst x.
  apply Bool.not_true_iff_false in E; apply E, existsb_exists.
  exists n; split; [exact Hx|apply String.eqb_refl].
Qed.

(* ------------------------------------------------------------------ *)
(** ** Backup claims *)

(** C1 (failing input): no step of [create_backup] writes the metadata into
    the working tree, so [_compress_backup] never adds [metadata.json]: a
    successful backup, of any type, has no [metadata.json] member. With only
    [daily_kpis] holding rows, [create_backup("database_only", "nightly")]
    succeeds with an archive of the table dump and the schema file only,
    and the schema's [row_counts] give 0 rows for every table: the length
    of the last [select] result. *)
Theorem create_backup_archive_lacks_metadata :
  (forall cfg env stamp iso now ty desc,
     match build_archive cfg env stamp iso now ty desc with
     | Some archive => ~ In "metadata.json" (map fst archive)
     | None => True
     end) /\
  build_archive default_backup_config db_env "20261014_020000" iso0 0 "database_only" "nightly"
  = Some [("database/daily_kpis.json", JsonText kpi_rows);
          ("database/schema_info.json", JsonText db_env_schema)] /\
  fst (create_backup system3 db_env "20261014_020000" iso0 0 "database_only" "nightly")
  = Some "backup_database_only_20261014_020000_nightly.zip".
Proof.
  split; [intros; apply build_archive_no_meta|].
  split; vm_compute; reflexivity.
Qed.

(** An archive with a table dump and no [metadata.json]. *)
Definition archive_no_meta : list (string * content) :=
  [("database/daily_kpis.json", JsonText kpi_rows)].

(** C2 (failing input): restoring an archive without [metadata.json] returns
    [False] but leaves the extracted [restore_temp] directory in place: the
    early [return False] skips the cleanup. *)
Theorem restore_without_metadata_keeps_temp :
  forall db_ok : bool,
  restore_backup archive_no_meta "full" db_ok new_backup_system
  = (false, [], with_temp new_backup_system (Some archive_no_meta)).
Proof. intro db_ok; destruct db_ok; vm_compute; reflexivity. Qed.

(** C7 (counterexample): four [create_backup("full")] calls within one
    second get the same archive name, each overwriting the last: one archive
    remains, not three. *)
Lemma four_backups_same_second_leave_one :
  map bname (backups (create_full_seq system3 four_same_second))
  = ["backup_full_20261014_020000.zip"] /\
  length (backups (create_full_seq system3 four_same_second)) <> 3%nat.
Proof. vm_compute; split; [reflexivity|discriminate]. Qed.

(** Three backups already written, before the fourth. *)
Definition system3_after3 : BackupSystem :=
  create_full_seq system3 (firstn 3 four_distinct).

(** An archive without metadata (a backup as [create_backup] writes it)
    holding a configuration file, and an archive with metadata holding
    another one. *)
Definition archive_old_config : list (string * content) :=
  [("config/old.json", JsonText (JObj [("k", JStr "old")]))].

Definition archive_with_meta : list (string * content) :=
  [("metadata.json", JsonText (JObj [("type", JStr "full")]));
   ("config/new.json", JsonText (JObj [("k", JStr "new")]))].

(** C8 (failing input): a [configs_only] restore never upserts, but the
    [restore_temp] left by a restore that failed for lack of metadata is
    still there: restoring [archive_with_meta] afterwards copies [old.json],
    which that archive does not contain. *)
Theorem restore_configs_only_copies_stale_file :
  (forall archive db_ok sys,
     Forall (fun e => match e with Upsert _ _ => False | CopyConfig _ _ => True end)
       (snd (fst (restore_backup archive "configs_only" db_ok sys)))) /\
  fst (fst (restore_backup archive_old_config "configs_only" true new_backup_system)) = false /\
  snd (fst (restore_backup archive_with_meta "configs_only" true
              (snd (restore_backup archive_old_config "configs_only" true new_backup_system))))
  = [CopyConfig "old.json" (JsonText (JObj [("k", JStr "old")]));
     CopyConfig "new.json" (JsonText (JObj [("k", JStr "new")]))] /\
  ~ In "config/old.json" (map fst archive_with_meta).
Proof.
  split.
  - intros archive db_ok sys; unfold restore_backup.
    destruct (dict_get _ _) as [c|]; [|destruct (dir_exists _ _); constructor].
    destruct (json_load c) as [[]|]; simpl; try constructor.
    try rewrite app_nil_l; unfold restore_configs.
    destruct (dir_exists _ _); [|constructor].
    apply Forall_forall; intros e He; apply in_map_iff in He as [p [<- _]]; exact I.
  - split; [vm_compute; reflexivity|].
    split; [vm_compute; reflexivity|].
    simpl; intuition discriminate.
Qed.





(* ================================================================== *)
(** * Further cache operations *)

(** [SmartCache.invalidate]: whether the key existed, and the cache after. *)
Definition invalidate (k : string) (c : SmartCache) : bool * SmartCache :=
  if dict_mem k (cache c) then
    let d := dict_del k (cache c) in
    (true, mkCache d (max_size c) (set_size (stats c) (len d)))
  else (false, c).

(** [SmartCache.clear] *)
Definition clear (c : SmartCache) : SmartCache :=
  mkCache [] (max_size c) (set_size (stats c) 0).

(** [SmartCache._cleanup_expired], the sweep run by the background thread. *)
Definition cleanup_expired (now : Z) (c : SmartCache) : SmartCache :=
  let expired_keys := map fst (filter (fun p => is_expired now (snd p)) (cache c)) in
  let d := fold_left (fun d k => dict_del k d) expired_keys (cache c) in
  let s := stats c in
  let s' := mkStats (hits s) (misses s) (evictions s) (expirations s + len expired_keys)
              (size s) in
  match expired_keys with
  | [] => mkCache d (max_size c) s'
  | _ => mkCache d (max_size c) (set_size s' (len d))
  end.

(** [SmartCache.get_keys] *)
Definition get_keys (c : SmartCache) : list string := map fst (cache c).

(** [SmartCache.get_entries_by_tag]: each dict built by the source holds the
    dict key and the fields of the entry, given here as the pair. *)
Definition get_entries_by_tag (t : string) (c : SmartCache) : list (string * CacheEntry) :=
  filter (fun p => has_tag t (snd p)) (cache c).

Record GlobalStats := mkGlobal {
  total_namespaces : Z;
  ns_stats : list (string * StatsReport);
  global_hit_rate : PyVal;   (** the int [0], or the formatted string *)
  total_entries : Z
}.

(** One iteration of the loop of [get_global_stats] over the namespaces:
    the per-namespace reports, [total_hits], [total_misses] and
    [total_entries]; [memory] gives each namespace's [_estimate_memory_usage]. *)
Definition global_step (memory : SmartCache -> string)
    (acc : list (string * StatsReport) * Z * Z * Z) (p : string * SmartCache)
  : list (string * StatsReport) * Z * Z * Z :=
  let '(nss, th, tm, te) := acc in
  let st := get_stats (memory (snd p)) (snd p) in
  (dict_set (fst p) st nss, th + r_hits st, tm + r_misses st, te + r_size st).

(** [CacheManager.get_global_stats] *)
Definition get_global_stats (memory : SmartCache -> string) (m : CacheManager) : GlobalStats :=
  let '(nss, th, tm, te) := fold_left (global_step memory) (namespaces m) ([], 0, 0, 0) in
  let total_accesses := th + tm in
  mkGlobal (len (namespaces m)) nss
    (if Z.ltb 0 total_accesses
     then PyStr (format_1f (sf_value (rate_float th total_accesses)) ++ "%")
     else PyInt 0)
    te.

(** The [size] counter equals the number of entries. *)
Definition size_ok (c : SmartCache) : Prop := size (stats c) = len (cache c).

(** The keys are distinct, as in a dict. *)
Definition keys_unique (c : SmartCache) : Prop := NoDup (map fst (cache c)).

(* ------------------------------------------------------------------ *)
(** ** Lemmas on the further cache operations *)

Section DictFacts2.
Context {V : Type}.

Lemma dict_set_keys (k : string) (v : V) (d : list (string * V)) :
  map fst (dict_set k v d)
  = match dict_get k d with Some _ => map fst d | None => (map fst d ++ [k])%list end.
Proof.
  induction d as [|[k' v'] r IH]; simpl; [reflexivity|].
  destruct (String.eqb k k') eqn:E; simpl.
  - apply String.eqb_eq in E; now subst.
  - rewrite IH; now destruct (dict_get k r).
Qed.

Lemma dict_set_length (k : string) (v : V) (d : list (string * V)) :
  length (dict_set k v d)
  = match dict_get k d with Some _ => length d | None => S (length d) end.
Proof.
  rewrite <- (length_map fst (dict_set k v d)), dict_set_keys.
  destruct (dict_get k d); [now rewrite length_map|].
  rewrite length_app, length_map; simpl; lia.
Qed.

Lemma dict_set_nodup (k : string) (v : V) (d : list (string * V)) :
  NoDup (map fst d) -> NoDup (map fst (dict_set k v d)).
Proof.
  intro Hnd; rewrite dict_set_keys.
  destruct (dict_get k d) eqn:E; [exact Hnd|].
  apply (Permutation_NoDup (Permutation_cons_append _ _)).
  constructor; [now apply dict_get_none_not_in|exact Hnd].
Qed.

Lemma dict_del_nodup (k : string) (d : list (string * V)) :
  NoDup (map fst d) -> NoDup (map fst (dict_del k d)).
Proof. apply nodup_map_filter. Qed.

Lemma dict_get_del_other (k k' : string) (d : list (string * V)) :
  k' <> k -> dict_get k' (dict_del k d) = dict_get k' d.
Proof.
  intro Hne; unfold dict_del; induction d as [|[k2 v2] r IH]; simpl; [reflexivity|].
  destruct (String.eqb k k2) eqn:E; simpl.
  - apply String.eqb_eq in E; subst k2.
    apply String.eqb_neq in Hne; now rewrite Hne.
  - now rewrite IH.
Qed.

Lemma dict_get_in (k : string) (v : V) (d : list (string * V)) :
  dict_get k d = Some v -> In (k, v) d.
Proof.
  induction d as [|[k2 v2] r IH]; simpl; [discriminate|].
  destruct (String.eqb k k2) eqn:E.
  - intro H; inversion H; subst; apply String.eqb_eq in E; subst; now left.
  - intro H; right; now apply IH.
Qed.

Lemma in_dict_get (k : string) (v : V) (d : list (string * V)) :
  NoDup (map fst d) -> In (k, v) d -> dict_get k d = Some v.
Proof.
  induction d as [|[k2 v2] r IH]; simpl; [tauto|].
  intros Hnd Hin; inversion Hnd as [|? ? Hx Hr]; subst.
  destruct (String.eqb k k2) eqn:E.
  - apply String.eqb_eq in E; subst k2.
    destruct Hin as [Heq|Hin]; [now inversion Heq|].
    exfalso; apply Hx; now apply (in_map fst) in Hin.
  - destruct Hin as [Heq|Hin]; [inversion Heq; subst; now rewrite String.eqb_refl in E|].
    now apply IH.
Qed.

(** Deleting, one by one, the keys of the entries selected by [P] keeps
    exactly the other entries, when the keys are distinct. *)
Lemma fold_del_selected (P : string * V -> bool) (d : list (string * V)) :
  NoDup (map fst d) ->
  fold_left (fun d k => dict_del k d) (map fst (filter P d)) d
  = filter (fun p => negb (P p)) d.
Proof.
  intro Hnd; rewrite fold_dict_del.
  apply filter_ext_in; intros [k e] Hin; simpl; f_equal.
  destruct (P (k, e)) eqn:Hp.
  - apply existsb_exists; exists k; split; [|apply String.eqb_refl].
    apply in_map_iff; exists (k, e); split; [reflexivity|].
    apply filter_In; now split.
  - apply Bool.not_true_iff_false; intro Hex.
    apply existsb_exists in Hex as [k' [Hk' Heq]].
    apply String.eqb_eq in Heq; subst k'.
    apply in_map_iff in Hk' as [[k2 e2] [Hk2 Hin2]]; simpl in Hk2; subst k2.
    apply filter_In in Hin2 as [Hin2 Hp2].
    assert (Hsame : (k, e2) = (k, e)) by (apply (nodup_keys_same d); auto).
    rewrite Hsame in Hp2; congruence.
Qed.

(** Without the distinct keys, no entry selected by [P] survives. *)
Lemma fold_del_selected_gone (P : string * V -> bool) (d : list (string * V)) (p : string * V) :
  In p (fold_left (fun d k => dict_del k d) (map fst (filter P d)) d) -> P p = false.
Proof.
  rewrite fold_dict_del; intro Hin; apply filter_In in Hin as [Hin Hn].
  destruct (P p) eqn:Hp; [|reflexivity].
  exfalso; apply Bool.negb_true_iff in Hn.
  apply Bool.not_true_iff_false in Hn; apply Hn, existsb_exists.
  exists (fst p); split; [|apply String.eqb_refl].
  apply in_map; apply filter_In; now split.
Qed.
End DictFacts2.

Lemma dict_del_length_lt {V} (k : string) (d : list (string * V)) :
  In k (map fst d) -> (length (dict_del k d) < length d)%nat.
Proof.
  unfold dict_del; induction d as [|[k2 v2] r IH]; simpl; [tauto|].
  intros [Heq|Hin].
  - subst k2; rewrite String.eqb_refl; simpl.
    pose proof (filter_length_le (fun p => negb (String.eqb k (fst p))) r); lia.
  - destruct (String.eqb k k2); simpl;
      [pose proof (filter_length_le (fun p => negb (String.eqb k (fst p))) r); lia|].
    specialize (IH Hin); lia.
Qed.

Lemma dict_del_length_nodup {V} (k : string) (d : list (string * V)) :
  NoDup (map fst d) -> In k (map fst d) -> S (length (dict_del k d)) = length d.
Proof.
  unfold dict_del; induction d as [|[k2 v2] r IH]; simpl; [tauto|].
  intros Hnd Hin; inversion Hnd as [|? ? Hx Hr]; subst.
  destruct (String.eqb k k2) eqn:E.
  - apply String.eqb_eq in E; subst k2; simpl; f_equal.
    rewrite filter_all_true; [reflexivity|].
    intros [k3 v3] Hin3; simpl; apply Bool.negb_true_iff, String.eqb_neq.
    intro E; subst k3; apply Hx; now apply (in_map fst) in Hin3.
  - destruct Hin as [Heq|Hin]; [subst k2; now rewrite String.eqb_refl in E|].
    simpl; f_equal; now apply IH.
Qed.

(** Invariant of the scan of [_evict_oldest]. *)
Lemma oldest_scan_inv (d : list (string * CacheEntry)) (o : option string) (t : Z) :
  let r := fold_left
      (fun acc p =>
         if Z.ltb (last_accessed (snd p)) (snd acc) then (Some (fst p), last_accessed (snd p))
         else acc) d (o, t) in
  snd r <= t /\ (forall p, In p d -> snd r <= last_accessed (snd p)) /\
  (r = (o, t) \/ exists p, In p d /\ r = (Some (fst p), last_accessed (snd p))).
Proof.
  revert o t; induction d as [|p r IH]; intros o t; simpl.
  - split; [lia|split; [tauto|now left]].
  - destruct (Z.ltb (last_accessed (snd p)) t) eqn:L.
    + apply Z.ltb_lt in L.
      destruct (IH (Some (fst p)) (last_accessed (snd p))) as (H1 & H2 & H3); simpl in *.
      split; [lia|split].
      * intros q [<-|Hq]; [lia|now apply H2].
      * right; destruct H3 as [H3|(q & Hq & H3)]; [exists p; now split; [left|]|].
        exists q; now split; [right|].
    + apply Z.ltb_ge in L.
      destruct (IH o t) as (H1 & H2 & H3); simpl in *.
      split; [lia|split].
      * intros q [<-|Hq]; [lia|now apply H2].
      * destruct H3 as [H3|(q & Hq & H3)]; [now left|right; exists q; now split; [right|]].
Qed.

(** When some entry was accessed before [now], the scan picks an entry of
    the dict with the smallest [last_accessed]. *)
Lemma oldest_scan_some (now : Z) (d : list (string * CacheEntry)) :
  (exists p, In p d /\ last_accessed (snd p) < now) ->
  exists p, In p d /\ oldest_scan now d = (Some (fst p), last_accessed (snd p)) /\
            forall q, In q d -> last_accessed (snd p) <= last_accessed (snd q).
Proof.
  intros (p0 & Hp0 & Hlt).
  destruct (oldest_scan_inv d None now) as (H1 & H2 & H3); fold (oldest_scan now d) in *.
  destruct H3 as [H3|(p & Hp & H3)].
  - specialize (H2 p0 Hp0); rewrite H3 in H2; simpl in H2; lia.
  - exists p; split; [exact Hp|split; [exact H3|]].
    intros q Hq; specialize (H2 q Hq); rewrite H3 in H2; exact H2.
Qed.

(** The entry stored by [set]: its tags are those given, each once. *)
Lemma add_tags_tags (tgs : list string) (e : CacheEntry) :
  NoDup (tags e) ->
  let e' := fold_left (fun e t => add_tag t e) tgs e in
  NoDup (tags e') /\ (forall t, In t (tags e') <-> In t (tags e) \/ In t tgs) /\
  key e' = key e /\ access_count e' = access_count e /\ last_accessed e' = last_accessed e.
Proof.
  revert e; induction tgs as [|t r IH]; intros e Hnd; simpl.
  - split; [exact Hnd|split; [tauto|auto]].
  - assert (Ha : NoDup (tags (add_tag t e)) /\
                 (forall x, In x (tags (add_tag t e)) <-> In x (tags e) \/ x = t) /\
                 key (add_tag t e) = key e /\ access_count (add_tag t e) = access_count e /\
                 last_accessed (add_tag t e) = last_accessed e).
    { unfold add_tag; destruct (has_tag t e) eqn:Ht; simpl.
      - split; [exact Hnd|split; [|auto]].
        intro x; split; [tauto|intros [H|H]; [exact H|subst x]].
        apply existsb_exists in Ht as [y [Hy Hq]]; apply String.eqb_eq in Hq; now subst.
      - split; [|split; [|auto]].
        + apply (Permutation_NoDup (Permutation_cons_append _ _)); constructor; [|exact Hnd].
          intro Hin; apply Bool.not_true_iff_false in Ht; apply Ht, existsb_exists.
          exists t; split; [exact Hin|apply String.eqb_refl].
        + intro x; rewrite in_app_iff; simpl; intuition. }
    destruct Ha as (Ha1 & Ha2 & Ha3 & Ha4 & Ha5).
    destruct (IH (add_tag t e) Ha1) as (H1 & H2 & H3 & H4 & H5).
    split; [exact H1|split; [|rewrite H3, H4, H5; auto]].
    intro x; rewrite H2, Ha2; simpl; intuition.
Qed.

(** When every key is a non-empty string and some entry was accessed before
    [now], [_evict_oldest] deletes one entry with the smallest
    [last_accessed] and counts it. *)
Lemma evict_oldest_cache (now : Z) (c : SmartCache) :
  (forall p, In p (cache c) -> fst p <> "") ->
  (exists p, In p (cache c) /\ last_accessed (snd p) < now) ->
  exists p, In p (cache c) /\
    (forall q, In q (cache c) -> last_accessed (snd p) <= last_accessed (snd q)) /\
    evict_oldest now c
    = mkCache (dict_del (fst p) (cache c)) (max_size c)
        (mkStats (hits (stats c)) (misses (stats c)) (evictions (stats c) + 1)
           (expirations (stats c)) (len (dict_del (fst p) (cache c)))).
Proof.
  intros Hne Hold.
  destruct (oldest_scan_some now (cache c) Hold) as (p & Hp & Hscan & Hmin).
  exists p; split; [exact Hp|split; [exact Hmin|]].
  unfold evict_oldest.
  destruct (cache c) as [|x r] eqn:Ec; [contradiction|].
  rewrite Hscan; cbn [fst].
  assert (Ht : str_truthy (fst p) = true).
  { unfold str_truthy; apply Bool.negb_true_iff, String.eqb_neq, Hne, Hp. }
  now rewrite Ht.
Qed.

Lemma global_fold (memory : SmartCache -> string) (l : list (string * SmartCache))
    (nss : list (string * StatsReport)) (th tm te : Z) :
  exists nss',
    fold_left (global_step memory) l (nss, th, tm, te)
    = (nss', th + fold_right (fun p acc => hits (stats (snd p)) + acc) 0 l,
             tm + fold_right (fun p acc => misses (stats (snd p)) + acc) 0 l,
             te + fold_right (fun p acc => size (stats (snd p)) + acc) 0 l).
Proof.
  revert nss th tm te; induction l as [|p r IH]; intros nss th tm te; cbn [fold_left fold_right].
  - exists nss; now rewrite !Z.add_0_r.
  - change (global_step memory (nss, th, tm, te) p)
      with (dict_set (fst p) (get_stats (memory (snd p)) (snd p)) nss,
            th + hits (stats (snd p)), tm + misses (stats (snd p)), te + size (stats (snd p))).
    destruct (IH (dict_set (fst p) (get_stats (memory (snd p)) (snd p)) nss)
                 (th + hits (stats (snd p))) (tm + misses (stats (snd p)))
                 (te + size (stats (snd p)))) as [nss' H].
    exists nss'; rewrite H.
    apply f_equal2; [apply f_equal2; [apply f_equal2; [reflexivity|]|]|]; lia.
Qed.

(* ------------------------------------------------------------------ *)
(** ** Further properties of the cache *)

(** [invalidate k] answers whether [k] was cached, leaves [k] uncached and
    every other key as it was, changes no counter but [size], and leaves the
    cache untouched when it answers [False]. *)
Theorem invalidate_spec (k : string) (c : SmartCache) :
  fst (invalidate k c) = dict_mem k (cache c) /\
  dict_get k (cache (snd (invalidate k c))) = None /\
  (forall k', k' <> k -> dict_get k' (cache (snd (invalidate k c))) = dict_get k' (cache c)) /\
  stats (snd (invalidate k c)) = set_size (stats c) (size (stats (snd (invalidate k c)))) /\
  (fst (invalidate k c) = false -> snd (invalidate k c) = c).
Proof.
  unfold invalidate; destruct (dict_mem k (cache c)) eqn:M; simpl.
  - split; [reflexivity|split; [apply dict_get_del_same|split]].
    + intros k' Hk; now apply dict_get_del_other.
    + split; [reflexivity|discriminate].
  - unfold dict_mem in M; destruct (dict_get k (cache c)) eqn:G; [discriminate|].
    split; [reflexivity|split; [reflexivity|split; [reflexivity|split; [|reflexivity]]]].
    destruct (stats c); reflexivity.
Qed.

(** [_cleanup_expired] on a cache with distinct keys keeps exactly the
    unexpired entries, in their order, adds the number of expired entries to
    [expirations], and changes neither hits, misses nor evictions. *)
Theorem cleanup_expired_spec (now : Z) (c : SmartCache) :
  keys_unique c ->
  cache (cleanup_expired now c) = filter (fun p => negb (is_expired now (snd p))) (cache c) /\
  expirations (stats (cleanup_expired now c))
  = expirations (stats c) + len (filter (fun p => is_expired now (snd p)) (cache c)) /\
  hits (stats (cleanup_expired now c)) = hits (stats c) /\
  misses (stats (cleanup_expired now c)) = misses (stats c) /\
  evictions (stats (cleanup_expired now c)) = evictions (stats c).
Proof.
  intro Hnd; unfold cleanup_expired; cbv zeta.
  rewrite (fold_del_selected (fun p => is_expired now (snd p)) (cache c) Hnd).
  assert (Hl : len (map fst (filter (fun p => is_expired now (snd p)) (cache c)))
               = len (filter (fun p => is_expired now (snd p)) (cache c)))
    by (unfold len; now rewrite length_map).
  rewrite Hl.
  destruct (map fst (filter (fun p => is_expired now (snd p)) (cache c))); simpl;
    repeat split; reflexivity.
Qed.

(** A [get] that finds an unexpired entry returns its value, counts a hit,
    records the access on that entry ([access_count + 1], [last_accessed =
    now]) and changes no other entry nor the order of the keys. *)
Theorem get_hit (now : Z) (k : string) (default : PyVal) (c : SmartCache) (e : CacheEntry) :
  dict_get k (cache c) = Some e -> is_expired now e = false ->
  fst (get now k default c) = value e /\
  dict_get k (cache (snd (get now k default c))) = Some (access now e) /\
  access_count (access now e) = access_count e + 1 /\ last_accessed (access now e) = now /\
  (forall k', k' <> k -> dict_get k' (cache (snd (get now k default c))) = dict_get k' (cache c)) /\
  get_keys (snd (get now k default c)) = get_keys c /\
  hits (stats (snd (get now k default c))) = hits (stats c) + 1 /\
  misses (stats (snd (get now k default c))) = misses (stats c).
Proof.
  intros He Hx; unfold get; rewrite He, Hx; simpl.
  refine (conj eq_refl (conj (dict_get_set_same _ _ _)
            (conj eq_refl (conj eq_refl (conj _ (conj _ (conj eq_refl eq_refl))))))).
  - intros k' Hk; now apply dict_get_set_other.
  - unfold get_keys; simpl; now rewrite dict_set_keys, He.
Qed.

Lemma get_hit_witness :
  let c := mkCache [("a", mkEntry "a" (PyInt 1) 0 300 0 0 [])] 10 (mkStats 0 0 0 0 1) in
  (dict_get "a" (cache c) = Some (mkEntry "a" (PyInt 1) 0 300 0 0 []) /\
   is_expired 5 (mkEntry "a" (PyInt 1) 0 300 0 0 []) = false) /\
  fst (get 5 "a" PyNone c) = PyInt 1.
Proof.
  intro c; split; [split; reflexivity|].
  apply (get_hit 5 "a" PyNone c (mkEntry "a" (PyInt 1) 0 300 0 0 [])); reflexivity.
Defined.

(** [set] on a key already cached, or on a cache below [max_size], evicts
    nothing and changes no counter but [size]: an existing key keeps its
    place, a new key goes last. *)
Theorem set_no_eviction (now : Z) (k : string) (v : PyVal) (ttl0 : Z) (tgs : list string)
    (c : SmartCache) :
  dict_mem k (cache c) = true \/ len (cache c) < max_size c ->
  stats (set now k v ttl0 tgs c) = set_size (stats c) (len (cache (set now k v ttl0 tgs c))) /\
  get_keys (set now k v ttl0 tgs c)
  = if dict_mem k (cache c) then get_keys c else (get_keys c ++ [k])%list.
Proof.
  intro H; unfold set.
  replace (Z.leb (max_size c) (len (cache c)) && negb (dict_mem k (cache c))) with false.
  - simpl; split; [reflexivity|].
    unfold get_keys; simpl; rewrite dict_set_keys; unfold dict_mem.
    now destruct (dict_get k (cache c)).
  - destruct H as [H|H]; [rewrite H; symmetry; apply andb_false_r|].
    apply Z.leb_gt in H; now rewrite H.
Qed.

Lemma set_no_eviction_witness :
  (dict_mem "b" (cache (new_cache 1)) = true \/ len (cache (new_cache 1)) < max_size (new_cache 1)) /\
  get_keys (set 0 "b" (PyInt 2) 300 [] (new_cache 1)) = ["b"].
Proof.
  assert (H : dict_mem "b" (cache (new_cache 1)) = true \/
              len (cache (new_cache 1)) < max_size (new_cache 1))
    by (right; reflexivity).
  split; [exact H|].
  destruct (set_no_eviction 0 "b" (PyInt 2) 300 [] (new_cache 1) H) as [_ ->]; reflexivity.
Defined.

(** The entry [set] stores holds the value, the times and counter of a fresh
    entry, and the tags given, each exactly once. *)
Theorem set_entry_tags (now : Z) (k : string) (v : PyVal) (ttl0 : Z) (tgs : list string)
    (c : SmartCache) :
  exists e, dict_get k (cache (set now k v ttl0 tgs c)) = Some e /\
    key e = k /\ value e = v /\ ttl e = ttl0 /\ created_at e = now /\
    last_accessed e = now /\ access_count e = 0 /\
    NoDup (tags e) /\ (forall t, In t (tags e) <-> In t tgs).
Proof.
  unfold set; simpl.
  eexists; split; [apply dict_get_set_same|].
  destruct (add_tags_fields tgs (new_entry k v ttl0 now)) as (H1 & H2 & H3).
  destruct (add_tags_tags tgs (new_entry k v ttl0 now) (NoDup_nil _)) as (H4 & H5 & H6 & H7 & H8).
  rewrite H1, H2, H3, H6, H7, H8; simpl.
  repeat split; try reflexivity; [exact H4| |]; intro Hin; apply H5 in Hin || apply H5; simpl in *; tauto.
Qed.

(** When the keys are distinct non-empty strings and some entry was
    accessed before [now], [_evict_oldest] deletes exactly one entry, one
    with the smallest [last_accessed], and counts one eviction. *)
Theorem evict_oldest_lru (now : Z) (c : SmartCache) :
  keys_unique c ->
  (forall p, In p (cache c) -> fst p <> "") ->
  (exists p, In p (cache c) /\ last_accessed (snd p) < now) ->
  exists p, In p (cache c) /\
    (forall q, In q (cache c) -> last_accessed (snd p) <= last_accessed (snd q)) /\
    cache (evict_oldest now c) = dict_del (fst p) (cache c) /\
    len (cache (evict_oldest now c)) = len (cache c) - 1 /\
    evictions (stats (evict_oldest now c)) = evictions (stats c) + 1.
Proof.
  intros Hnd Hne Hold.
  destruct (evict_oldest_cache now c Hne Hold) as (p & Hp & Hmin & He).
  exists p; rewrite He; simpl.
  split; [exact Hp|split; [exact Hmin|split; [reflexivity|split; [|reflexivity]]]].
  unfold len; rewrite <- (dict_del_length_nodup (fst p) (cache c) Hnd); [lia|].
  now apply in_map.
Qed.

Definition lru_cache : SmartCache :=
  mkCache [("a", mkEntry "a" (PyInt 1) 0 300 0 7 []);
           ("b", mkEntry "b" (PyInt 2) 0 300 0 3 [])] 2 (mkStats 0 0 0 0 2).

Lemma lru_cache_keys : keys_unique lru_cache.
Proof.
  unfold keys_unique; simpl; constructor; [simpl; intros [H|H]; [discriminate|exact H]|].
  constructor; [simpl; tauto|constructor].
Qed.

Lemma evict_oldest_lru_witness :
  (keys_unique lru_cache /\
   (forall p, In p (cache lru_cache) -> fst p <> "") /\
   (exists p, In p (cache lru_cache) /\ last_accessed (snd p) < 10)) /\
  len (cache (evict_oldest 10 lru_cache)) = 1.
Proof.
  assert (H2 : forall p, In p (cache lru_cache) -> fst p <> "").
  { simpl; intros p [<-|[<-|[]]]; simpl; discriminate. }
  assert (H3 : exists p, In p (cache lru_cache) /\ last_accessed (snd p) < 10).
  { exists ("b", mkEntry "b" (PyInt 2) 0 300 0 3 []); simpl; split; [tauto|lia]. }
  split; [split; [exact lru_cache_keys|split; assumption]|].
  destruct (evict_oldest_lru 10 lru_cache lru_cache_keys H2 H3) as (p & _ & _ & _ & H & _).
  rewrite H; reflexivity.
Defined.

(** While every key is a non-empty string and every entry was last accessed
    before [now], [set] keeps the cache within [max_size] (at least 1). *)
Theorem set_within_max_size (now : Z) (k : string) (v : PyVal) (ttl0 : Z) (tgs : list string)
    (c : SmartCache) :
  1 <= max_size c -> len (cache c) <= max_size c ->
  (forall p, In p (cache c) -> fst p <> "") ->
  (forall p, In p (cache c) -> last_accessed (snd p) < now) ->
  max_size (set now k v ttl0 tgs c) = max_size c /\
  len (cache (set now k v ttl0 tgs c)) <= max_size c.
Proof.
  intros Hm Hl Hne Hold; unfold set.
  destruct (Z.leb (max_size c) (len (cache c)) && negb (dict_mem k (cache c))) eqn:Cnd.
  - apply andb_true_iff in Cnd as [C1 C2]; apply Z.leb_le in C1.
    assert (Hold' : exists p, In p (cache c) /\ last_accessed (snd p) < now).
    { destruct (cache c) as [|x r]; [unfold len in *; simpl in *; lia|].
      exists x; split; [now left|apply Hold; now left]. }
    destruct (evict_oldest_cache now c Hne Hold') as (p & Hp & _ & He).
    rewrite He; simpl; split; [reflexivity|].
    pose proof (dict_del_length_lt (fst p) (cache c) (in_map fst _ _ Hp)) as Hlt.
    pose proof (dict_set_length k (fold_left (fun e t => add_tag t e) tgs (new_entry k v ttl0 now))
                  (dict_del (fst p) (cache c))) as Hs.
    unfold len in *.
    destruct (dict_get k (dict_del (fst p) (cache c))); lia.
  - simpl; split; [reflexivity|].
    pose proof (dict_set_length k (fold_left (fun e t => add_tag t e) tgs (new_entry k v ttl0 now))
                  (cache c)) as Hs.
    unfold dict_mem in Cnd; destruct (dict_get k (cache c)) eqn:G.
    + unfold len in *; rewrite Hs; lia.
    + simpl in Cnd; rewrite andb_true_r in Cnd; apply Z.leb_gt in Cnd.
      unfold len in *; rewrite Hs; lia.
Qed.

Lemma set_within_max_size_witness :
  (1 <= max_size lru_cache /\ len (cache lru_cache) <= max_size lru_cache /\
   (forall p, In p (cache lru_cache) -> fst p <> "") /\
   (forall p, In p (cache lru_cache) -> last_accessed (snd p) < 10)) /\
  len (cache (set 10 "c" (PyInt 3) 300 [] lru_cache)) <= 2.
Proof.
  assert (H3 : forall p, In p (cache lru_cache) -> fst p <> "").
  { simpl; intros p [<-|[<-|[]]]; simpl; discriminate. }
  assert (H4 : forall p, In p (cache lru_cache) -> last_accessed (snd p) < 10).
  { simpl; intros p [<-|[<-|[]]]; simpl; lia. }
  assert (H1 : 1 <= max_size lru_cache) by (simpl; lia).
  assert (H2 : len (cache lru_cache) <= max_size lru_cache) by (vm_compute; discriminate).
  split; [tauto|].
  apply (set_within_max_size 10 "c" (PyInt 3) 300 [] lru_cache H1 H2 H3 H4).
Defined.

Lemma evict_oldest_nodup (now : Z) (c : SmartCache) :
  keys_unique c -> keys_unique (evict_oldest now c).
Proof.
  unfold keys_unique, evict_oldest; intro H.
  destruct (cache c) as [|x r] eqn:E; [now rewrite E|].
  destruct (fst (oldest_scan now (x :: r))) as [k|]; [destruct (str_truthy k)|];
    cbn [cache]; rewrite ?E; [apply dict_del_nodup| |]; exact H.
Qed.

Lemma cleanup_expired_cache (now : Z) (c : SmartCache) :
  cache (cleanup_expired now c)
  = fold_left (fun d k => dict_del k d)
      (map fst (filter (fun p => is_expired now (snd p)) (cache c))) (cache c).
Proof.
  unfold cleanup_expired; cbv zeta.
  destruct (map fst (filter (fun p => is_expired now (snd p)) (cache c))); reflexivity.
Qed.

(** The [size] counter is the number of entries after every operation:
    [set], [invalidate_by_tag] and [clear] establish it, and [get],
    [invalidate], [_cleanup_expired] and [_evict_oldest] preserve it. *)
Theorem size_counter_invariant (c : SmartCache) (now : Z) (k : string) (default v : PyVal)
    (ttl0 : Z) (tgs : list string) (t : string) :
  size_ok (set now k v ttl0 tgs c) /\ size_ok (snd (invalidate_by_tag t c)) /\
  size_ok (clear c) /\
  (size_ok c ->
   size_ok (snd (get now k default c)) /\ size_ok (snd (invalidate k c)) /\
   size_ok (cleanup_expired now c) /\ size_ok (evict_oldest now c)).
Proof.
  split; [reflexivity|split; [reflexivity|split; [reflexivity|]]].
  intro H; split; [|split; [|split]].
  - unfold get; destruct (dict_get k (cache c)) as [e|] eqn:G;
      [destruct (is_expired now e)|]; unfold size_ok in *; simpl; try reflexivity.
    + unfold len in *; rewrite dict_set_length, G; exact H.
    + exact H.
  - unfold invalidate; destruct (dict_mem k (cache c)); [reflexivity|exact H].
  - unfold size_ok, cleanup_expired in *; cbv zeta.
    destruct (map fst (filter (fun p => is_expired now (snd p)) (cache c))); simpl;
      [exact H|reflexivity].
  - unfold size_ok, evict_oldest in *.
    destruct (cache c) as [|x r] eqn:E; [rewrite E; exact H|].
    destruct (fst (oldest_scan now (x :: r))) as [k'|]; [destruct (str_truthy k')|];
      simpl; try reflexivity; rewrite E; exact H.
Qed.

Lemma size_counter_invariant_witness :
  size_ok lru_cache /\ size_ok (evict_oldest 10 lru_cache).
Proof.
  assert (H : size_ok lru_cache) by reflexivity.
  split; [exact H|].
  apply (size_counter_invariant lru_cache 10 "a" PyNone PyNone 300 [] "t"); exact H.
Defined.

(** After [invalidate_by_tag t], [get_entries_by_tag t] finds nothing, and
    the count [invalidate_by_tag] returns is the number of entries
    [get_entries_by_tag] listed before. *)
Theorem invalidate_by_tag_entries (t : string) (c : SmartCache) :
  get_entries_by_tag t (snd (invalidate_by_tag t c)) = [] /\
  fst (invalidate_by_tag t c) = len (get_entries_by_tag t c).
Proof.
  split.
  - unfold get_entries_by_tag, invalidate_by_tag; simpl.
    apply filter_all_false; intros p Hp.
    exact (fold_del_selected_gone (fun p => has_tag t (snd p)) (cache c) p Hp).
  - unfold invalidate_by_tag, get_entries_by_tag, len; simpl; now rewrite length_map.
Qed.

(** [get_namespace] creates a missing namespace as an empty cache of
    [max_size] 500 and registers it; a second call returns the same cache and
    changes nothing; no other namespace and not the default cache change. *)
Theorem get_namespace_spec (ns : string) (m : CacheManager) :
  (dict_get ns (namespaces m) = None -> fst (get_namespace ns m) = new_cache 500) /\
  dict_get ns (namespaces (snd (get_namespace ns m))) = Some (fst (get_namespace ns m)) /\
  get_namespace ns (snd (get_namespace ns m)) = get_namespace ns m /\
  default_cache (snd (get_namespace ns m)) = default_cache m /\
  (forall ns', ns' <> ns ->
     dict_get ns' (namespaces (snd (get_namespace ns m))) = dict_get ns' (namespaces m)).
Proof.
  unfold get_namespace; destruct (dict_get ns (namespaces m)) as [c|] eqn:G; simpl.
  - split; [discriminate|split; [exact G|split; [now rewrite G|split; reflexivity]]].
  - split; [reflexivity|split; [apply dict_get_set_same|split; [|split; [reflexivity|]]]].
    + now rewrite dict_get_set_same.
    + intros ns' Hn; now apply dict_get_set_other.
Qed.

(** The memoized wrapper returns a cached value that is not [None] and still
    fresh without calling the function. *)
Theorem memoize_returns_cached (ttl0 : Z) (tgs : list string) (ns cache_key : string)
    (result : PyVal) (now : Z) (m : CacheManager) (c : SmartCache) (e : CacheEntry) :
  dict_get ns (namespaces m) = Some c -> dict_get cache_key (cache c) = Some e ->
  is_expired now e = false -> value e <> PyNone ->
  fst (memoize_call ttl0 tgs ns cache_key result now m) = (value e, false).
Proof.
  intros Hn He Hx Hv.
  unfold memoize_call, get_namespace; rewrite Hn.
  unfold get; rewrite He, Hx; cbn [value access fst].
  destruct (value e); [contradiction|reflexivity|reflexivity].
Qed.

Definition memo_hit_state : CacheManager :=
  mkManager (new_cache 1000)
    [("default", mkCache [("k", mkEntry "k" (PyInt 4) 0 300 0 0 [])] 500 (mkStats 0 0 0 0 1))].

Lemma memoize_returns_cached_witness :
  (dict_get "default" (namespaces memo_hit_state)
     = Some (mkCache [("k", mkEntry "k" (PyInt 4) 0 300 0 0 [])] 500 (mkStats 0 0 0 0 1)) /\
   dict_get "k" [("k", mkEntry "k" (PyInt 4) 0 300 0 0 [])] = Some (mkEntry "k" (PyInt 4) 0 300 0 0 []) /\
   is_expired 5 (mkEntry "k" (PyInt 4) 0 300 0 0 []) = false /\ PyInt 4 <> PyNone) /\
  fst (memoize_call 300 [] "default" "k" (PyInt 9) 5 memo_hit_state) = (PyInt 4, false).
Proof.
  split; [split; [reflexivity|split; [reflexivity|split; [reflexivity|discriminate]]]|].
  apply (memoize_returns_cached 300 [] "default" "k" (PyInt 9) 5 memo_hit_state
           (mkCache [("k", mkEntry "k" (PyInt 4) 0 300 0 0 [])] 500 (mkStats 0 0 0 0 1))
           (mkEntry "k" (PyInt 4) 0 300 0 0 [])); [reflexivity|reflexivity|reflexivity|discriminate].
Defined.

(** A call that ran the function and got a result other than [None] caches
    it: a second call within the [ttl] returns that result without running
    the function, whatever the function would return then. *)
Theorem memoize_second_call_cached (ttl0 : Z) (tgs : list string) (ns cache_key : string)
    (r r2 : PyVal) (t0 t1 : Z) (m : CacheManager) :
  snd (fst (memoize_call ttl0 tgs ns cache_key r t0 m)) = true ->
  r <> PyNone -> t1 - t0 <= ttl0 * 1000000 ->
  fst (memoize_call ttl0 tgs ns cache_key r2 t1
         (snd (memoize_call ttl0 tgs ns cache_key r t0 m))) = (r, false).
Proof.
  intros Hinv Hr Ht.
  unfold memoize_call in Hinv; unfold memoize_call at 2.
  destruct (get_namespace ns m) as [ci m0].
  destruct (get t0 cache_key PyNone ci) as [res ci1].
  destruct res; cbn [fst snd] in *; try discriminate.
  destruct (set_lookup t0 cache_key r ttl0 tgs ci1) as (e & He & Hv & Hc & Htt).
  unfold memoize_call, get_namespace, put_namespace; cbn [namespaces].
  rewrite dict_get_set_same.
  unfold get; rewrite He; unfold is_expired; rewrite Hc, Htt.
  replace (ttl0 * 1000000 <? t1 - t0) with false by (symmetry; apply Z.ltb_ge; lia).
  cbn [value access fst]; rewrite Hv.
  destruct r; [contradiction|reflexivity|reflexivity].
Qed.

Lemma memoize_second_call_cached_witness :
  (snd (fst (memoize_call 300 [] "default" "k" (PyInt 7) 0 (mkManager (new_cache 1000) []))) = true /\
   PyInt 7 <> PyNone /\ 60000000 - 0 <= 300 * 1000000) /\
  fst (memoize_call 300 [] "default" "k" (PyInt 8) 60000000
         (snd (memoize_call 300 [] "default" "k" (PyInt 7) 0 (mkManager (new_cache 1000) []))))
  = (PyInt 7, false).
Proof.
  split; [split; [reflexivity|split; [discriminate|lia]]|].
  apply memoize_second_call_cached; [reflexivity|discriminate|lia].
Defined.

(** [get_global_stats] counts the namespaces, sums their [size] counters
    into [total_entries], never looks at the default cache of the manager,
    and reports the int [0] as global hit rate exactly when the namespaces
    have no hit and no miss in total. *)
Theorem global_stats_totals (memory : SmartCache -> string) (m : CacheManager) :
  total_namespaces (get_global_stats memory m) = len (namespaces m) /\
  total_entries (get_global_stats memory m)
  = fold_right (fun p acc => size (stats (snd p)) + acc) 0 (namespaces m) /\
  (forall d, get_global_stats memory (mkManager d (namespaces m)) = get_global_stats memory m) /\
  (global_hit_rate (get_global_stats memory m) = PyInt 0 <->
   fold_right (fun p acc => hits (stats (snd p)) + acc) 0 (namespaces m)
   + fold_right (fun p acc => misses (stats (snd p)) + acc) 0 (namespaces m) <= 0).
Proof.
  split; [|split; [|split; [intro d; reflexivity|]]];
    unfold get_global_stats; destruct (global_fold memory (namespaces m) [] 0 0 0) as [nss' H];
    rewrite H; cbn [total_namespaces total_entries global_hit_rate]; [reflexivity|lia|].
  destruct (Z.ltb 0 _) eqn:L; [apply Z.ltb_lt in L|apply Z.ltb_ge in L];
    split; intro Hq; try discriminate; try reflexivity; lia.
Qed.

(* ------------------------------------------------------------------ *)
(** ** Lemmas on names and on the backup directory *)

Lemma str_length_app (s t : string) :
  String.length (s ++ t) = (String.length s + String.length t)%nat.
Proof. induction s as [|c s IH]; simpl; [reflexivity|now rewrite IH]. Qed.

Lemma substring_app_len (s t : string) (m : nat) :
  substring (String.length s) m (s ++ t) = substring 0 m t.
Proof. induction s as [|c s IH]; simpl; [reflexivity|exact IH]. Qed.

Lemma substring_full (s : string) : substring 0 (String.length s) s = s.
Proof. induction s as [|c s IH]; simpl; [reflexivity|now rewrite IH]. Qed.

Lemma ends_with_app (s suf : string) : ends_with suf (s ++ suf) = true.
Proof.
  unfold ends_with; rewrite str_length_app.
  replace (String.length s + String.length suf - String.length suf)%nat
    with (String.length s) by lia.
  rewrite substring_app_len, substring_full, String.eqb_refl, andb_true_r.
  apply Nat.leb_le; lia.
Qed.

Lemma dir_write_in (n : string) (mt : Z) (a : list (string * content)) (d : list BackupFile) :
  In (mkBFile n mt a) (dir_write n mt a d).
Proof.
  induction d as [|f r IH]; simpl; [now left|].
  destruct (String.eqb (bname f) n); [now left|now right].
Qed.

Lemma dir_write_cases (n : string) (mt : Z) (a : list (string * content)) (d : list BackupFile)
    (g : BackupFile) :
  In g (dir_write n mt a d) -> g = mkBFile n mt a \/ In g d.
Proof.
  induction d as [|f r IH]; simpl; [intros [<-|[]]; now left|].
  destruct (String.eqb (bname f) n).
  - intros [<-|Hg]; [now left|right; now right].
  - intros [<-|Hg]; [right; now left|].
    destruct (IH Hg) as [H|H]; [now left|right; now right].
Qed.

Lemma files_to_delete_backup (max_b : Z) (d : list BackupFile) (g : BackupFile) :
  In g (files_to_delete max_b d) -> In g d /\ is_backup_name (bname g) = true.
Proof.
  unfold files_to_delete.
  destruct (Z.leb _ max_b); [intros []|].
  intro Hg; apply (proj1 (filter_In (fun f => is_backup_name (bname f)) g d)).
  apply (Permutation_in _ (sort_mtime_perm _)).
  rewrite <- (firstn_skipn (Z.to_nat (len (filter (fun f => is_backup_name (bname f)) d) - max_b))
                (sort_mtime (filter (fun f => is_backup_name (bname f)) d))).
  apply in_or_app; now left.
Qed.

Lemma clean_below_max (max_b : Z) (d : list BackupFile) :
  count_backups d <= max_b -> clean_old_backups max_b d = d.
Proof.
  intro H; unfold clean_old_backups, files_to_delete; unfold count_backups in H.
  now replace (Z.leb _ max_b) with true by (symmetry; apply Z.leb_le; lia).
Qed.

Lemma count_backups_pos (d : list BackupFile) (f : BackupFile) :
  In f d -> is_backup_name (bname f) = true -> 1 <= count_backups d.
Proof.
  intros Hf Hb; unfold count_backups, len.
  destruct (filter (fun f => is_backup_name (bname f)) d) eqn:E; simpl; [|lia].
  assert (Hin : In f (filter (fun f => is_backup_name (bname f)) d)) by (apply filter_In; now split).
  rewrite E in Hin; destruct Hin.
Qed.

Lemma count_backups_some (d : list BackupFile) :
  1 <= count_backups d -> exists g, In g d /\ is_backup_name (bname g) = true.
Proof.
  unfold count_backups, len.
  destruct (filter (fun f => is_backup_name (bname f)) d) as [|g r] eqn:E; simpl; [lia|].
  intros _; exists g; apply (proj1 (filter_In (fun f => is_backup_name (bname f)) g d)).
  rewrite E; now left.
Qed.

Lemma backup_name_glob (ty desc stamp : string) :
  is_backup_name (backup_name ty desc stamp ++ ".zip") = true.
Proof.
  unfold is_backup_name; rewrite ends_with_app.
  replace (String.prefix "backup_" (backup_name ty desc stamp ++ ".zip")) with true
    by (unfold backup_name; simpl; destruct (_ ++ _)%string; reflexivity).
  rewrite !andb_true_l; apply Nat.leb_le; unfold backup_name; rewrite !str_length_app.
  cbn [String.length]; lia.
Qed.

(* ------------------------------------------------------------------ *)
(** ** Further properties of the backup system *)

(** Every archive name [create_backup] builds matches the
    ["backup_*.zip"] glob of [_clean_old_backups]: the archives it writes are
    all subject to the retention. *)
Theorem backup_name_matches_glob (ty desc stamp : string) :
  is_backup_name (backup_name ty desc stamp ++ ".zip") = true.
Proof. apply backup_name_glob. Qed.


(** [_clean_old_backups] never deletes a file that is not a
    ["backup_*.zip"] archive, and changes nothing while there are at most
    [max_backups] archives. *)
Theorem clean_old_backups_frame (max_b : Z) (d : list BackupFile) :
  (forall f, In f d -> is_backup_name (bname f) = false -> In f (clean_old_backups max_b d)) /\
  (count_backups d <= max_b -> clean_old_backups max_b d = d).
Proof.
  split; [|apply clean_below_max].
  intros f Hf Hnb; unfold clean_old_backups; rewrite fold_dir_remove.
  apply filter_In; split; [exact Hf|].
  apply Bool.negb_true_iff, Bool.not_true_iff_false; intro Hex.
  apply existsb_exists in Hex as [x [Hx Heq]]; apply String.eqb_eq in Heq; subst x.
  apply in_map_iff in Hx as [g [Hgn Hg]].
  apply files_to_delete_backup in Hg as [_ Hgb].
  rewrite Hgn in Hgb; congruence.
Qed.

(** With an archive name holding neither ["/"] nor a NUL byte,
    [max_backups >= 1], distinct file names and every file older than
    [now], a [create_backup] whose archive is built succeeds and returns its
    archive, the archive is still in the directory after the retention, and
    at most [max_backups] archives remain. *)
Theorem create_backup_keeps_newest (sys : BackupSystem) (env : Env) (stamp iso : string)
    (now : Z) (ty desc : string) (archive : list (string * content)) :
  bad_path (backup_name ty desc stamp ++ ".zip") = false ->
  build_archive (backup_config sys) env stamp iso now ty desc = Some archive ->
  1 <= max_backups sys -> NoDup (map bname (backups sys)) ->
  (forall f, In f (backups sys) -> bmtime f < now) ->
  fst (create_backup sys env stamp iso now ty desc) = Some (backup_name ty desc stamp ++ ".zip") /\
  In (mkBFile (backup_name ty desc stamp ++ ".zip") now archive)
     (backups (snd (create_backup sys env stamp iso now ty desc))) /\
  count_backups (backups (snd (create_backup sys env stamp iso now ty desc))) <= max_backups sys.
Proof.
  intros Hp Hb Hmax Hnd Hold.
  unfold create_backup; cbv zeta; rewrite Hp, Hb.
  set (n := backup_name ty desc stamp ++ ".zip").
  set (fn := mkBFile n now archive).
  set (d := dir_write n now archive (backups sys)).
  assert (Hfn : In fn d) by apply dir_write_in.
  assert (Hnd' : NoDup (map bname d)) by (now apply dir_write_nodup).
  assert (Hkeep : In fn (clean_old_backups (max_backups sys) d) /\
                  count_backups (clean_old_backups (max_backups sys) d) <= max_backups sys).
  { destruct (Z_le_gt_dec (count_backups d) (max_backups sys)) as [Hle|Hgt].
    { rewrite clean_below_max by exact Hle; split; [exact Hfn|exact Hle]. }
    destruct (clean_old_backups_spec (max_backups sys) d ltac:(lia) Hnd' ltac:(lia))
      as (Hc & Hsub & Hdel).
    split; [|lia].
    destruct (in_dec string_dec n (map bname (clean_old_backups (max_backups sys) d))) as [Hin|Hnin].
    - apply in_map_iff in Hin as [g [Hgn Hg]].
      assert (g = fn) by (apply (nodup_map_same bname d); auto).
      now subst g.
    - assert (Hfn' : ~ In fn (clean_old_backups (max_backups sys) d))
        by (intro H; apply Hnin; now apply (in_map bname) in H).
      destruct (Hdel fn Hfn Hfn') as [_ Hmin].
      destruct (count_backups_some (clean_old_backups (max_backups sys) d) ltac:(lia))
        as (g & Hg & Hgb).
      specialize (Hmin g Hg Hgb); cbn [bmtime fn] in Hmin.
      destruct (dir_write_cases n now archive (backups sys) g (Hsub g Hg)) as [Hgf|Hgs].
      + exfalso; apply Hfn'; rewrite Hgf in Hg; exact Hg.
      + specialize (Hold g Hgs); simpl in Hmin; lia. }
  replace (existsb (fun f => String.eqb (bname f) n) (clean_old_backups (max_backups sys) d))
    with true.
  2: { symmetry; apply existsb_exists; exists fn; split; [exact (proj1 Hkeep)|].
       apply String.eqb_refl. }
  cbn [fst snd backups with_backups]; split; [reflexivity|exact Hkeep].
Qed.

Lemma create_backup_keeps_newest_witness :
  (bad_path (backup_name "full" "" "20261014_020004" ++ ".zip") = false /\
   build_archive (backup_config system3_after3) db_env "20261014_020004" iso0 4 "full" ""
     = Some [("database/daily_kpis.json", JsonText kpi_rows);
             ("database/schema_info.json", JsonText db_env_schema)] /\
   1 <= max_backups system3_after3 /\ NoDup (map bname (backups system3_after3)) /\
   (forall f, In f (backups system3_after3) -> bmtime f < 4)) /\
  fst (create_backup system3_after3 db_env "20261014_020004" iso0 4 "full" "")
  = Some "backup_full_20261014_020004.zip".
Proof.
  assert (Hb : build_archive (backup_config system3_after3) db_env "20261014_020004" iso0 4 "full" ""
               = Some [("database/daily_kpis.json", JsonText kpi_rows);
                       ("database/schema_info.json", JsonText db_env_schema)])
    by (vm_compute; reflexivity).
  assert (Hm : 1 <= max_backups system3_after3) by (vm_compute; discriminate).
  assert (Hnd : NoDup (map bname (backups system3_after3))).
  { vm_compute. repeat constructor; simpl; intuition discriminate. }
  assert (Ho : forall f, In f (backups system3_after3) -> bmtime f < 4).
  { vm_compute. intros f [<-|[<-|[<-|[]]]]; reflexivity. }
  assert (Hp : bad_path (backup_name "full" "" "20261014_020004" ++ ".zip") = false)
    by (vm_compute; reflexivity).
  split; [tauto|].
  exact (proj1 (create_backup_keeps_newest system3_after3 db_env "20261014_020004" iso0 4
                  "full" "" _ Hp Hb Hm Hnd Ho)).
Defined.



(* ------------------------------------------------------------------ *)
(** ** Retention over successive backups *)

(** One call of [create_backup] with its arguments and clock. *)
Record BackupCall := mkCall {
  call_stamp : string;
  call_iso : string;
  call_now : Z;
  call_type : string;
  call_desc : string
}.

(** Successive [create_backup] calls on the same backup system: the names
    returned, and the state after the last one. *)
Fixpoint create_backups (sys : BackupSystem) (env : Env) (calls : list BackupCall)
  : list (option string) * BackupSystem :=
  match calls with
  | [] => ([], sys)
  | c :: r =>
      let step := create_backup sys env (call_stamp c) (call_iso c) (call_now c)
                    (call_type c) (call_desc c) in
      let rest := create_backups (snd step) env r in
      (fst step :: fst rest, snd rest)
  end.

(** The archives of a directory, in directory order ([glob("backup_*.zip")]). *)
Definition backup_files (d : list BackupFile) : list BackupFile :=
  filter (fun f => is_backup_name (bname f)) d.

Lemma create_backup_success (sys : BackupSystem) (env : Env) (stamp iso : string) (now : Z)
    (ty desc n : string) :
  fst (create_backup sys env stamp iso now ty desc) = Some n ->
  n = backup_name ty desc stamp ++ ".zip" /\
  exists archive, build_archive (backup_config sys) env stamp iso now ty desc = Some archive /\
    snd (create_backup sys env stamp iso now ty desc)
    = with_backups sys (clean_old_backups (max_backups sys) (dir_write n now archive (backups sys))) /\
    existsb (fun f => String.eqb (bname f) n)
      (clean_old_backups (max_backups sys) (dir_write n now archive (backups sys))) = true.
Proof.
  unfold create_backup; cbv zeta.
  destruct (bad_path _); [discriminate|].
  destruct (build_archive _ _ _ _ _ _ _) as [archive|]; [|discriminate].
  destruct (existsb _ _) eqn:E; [|discriminate].
  cbn [fst]; intro H; injection H as <-.
  split; [reflexivity|exists archive; split; [reflexivity|split; [reflexivity|exact E]]].
Qed.

Lemma clean_sub (max_b : Z) (d : list BackupFile) (f : BackupFile) :
  In f (clean_old_backups max_b d) -> In f d.
Proof. unfold clean_old_backups; rewrite fold_dir_remove; intro H; now apply filter_In in H. Qed.

Lemma clean_nodup (max_b : Z) (d : list BackupFile) :
  NoDup (map bname d) -> NoDup (map bname (clean_old_backups max_b d)).
Proof. unfold clean_old_backups; rewrite fold_dir_remove; apply nodup_map_filter. Qed.

Lemma clean_count_le (max_b : Z) (d : list BackupFile) :
  0 <= max_b -> NoDup (map bname d) -> count_backups (clean_old_backups max_b d) <= max_b.
Proof.
  intros Hm Hnd; destruct (Z_le_gt_dec (count_backups d) max_b) as [Hle|Hgt].
  - now rewrite clean_below_max.
  - destruct (clean_old_backups_spec max_b d Hm Hnd ltac:(lia)) as [-> _]; lia.
Qed.

Lemma dir_write_unique (n : string) (mt : Z) (a : list (string * content)) (d : list BackupFile)
    (f : BackupFile) :
  NoDup (map bname d) -> In f (dir_write n mt a d) -> bname f = n -> f = mkBFile n mt a.
Proof.
  intros Hnd Hf Hn; apply (nodup_map_same bname (dir_write n mt a d)); auto.
  - now apply dir_write_nodup.
  - apply dir_write_in.
Qed.

Lemma dir_write_new (n : string) (mt : Z) (a : list (string * content)) (d : list BackupFile) :
  ~ In n (map bname d) -> dir_write n mt a d = (d ++ [mkBFile n mt a])%list.
Proof.
  induction d as [|f r IH]; simpl; intro H; [reflexivity|].
  destruct (String.eqb (bname f) n) eqn:E.
  - apply String.eqb_eq in E; exfalso; apply H; now left.
  - f_equal; apply IH; intro; apply H; now right.
Qed.

Lemma count_backups_names (d e : list BackupFile) :
  map bname d = map bname e -> count_backups d = count_backups e.
Proof.
  assert (Hc : forall l : list BackupFile,
            length (filter (fun f => is_backup_name (bname f)) l)
            = length (filter is_backup_name (map bname l))).
  { induction l as [|f r IH]; simpl; [reflexivity|].
    destruct (is_backup_name (bname f)); simpl; now rewrite IH. }
  intro H; unfold count_backups, len; now rewrite !Hc, H.
Qed.

(** The file [create_backup] reports is in the directory after the
    retention, and it is the archive just written. *)
Lemma create_backup_file_kept (sys : BackupSystem) (env : Env) (stamp iso : string) (now : Z)
    (ty desc n : string) (archive : list (string * content)) :
  NoDup (map bname (backups sys)) ->
  existsb (fun f => String.eqb (bname f) n)
    (clean_old_backups (max_backups sys) (dir_write n now archive (backups sys))) = true ->
  In (mkBFile n now archive)
    (clean_old_backups (max_backups sys) (dir_write n now archive (backups sys))).
Proof.
  intros Hnd Hex; apply existsb_exists in Hex as [g [Hg Hgn]]; apply String.eqb_eq in Hgn.
  assert (g = mkBFile n now archive) as <-; [|exact Hg].
  apply (dir_write_unique n now archive (backups sys)); auto.
  now apply clean_sub in Hg.
Qed.

Lemma sort_mtime_sorted_id (l : list BackupFile) :
  StronglySorted mtime_le l -> sort_mtime l = l.
Proof.
  induction l as [|f r IH]; simpl; intro Hs; [reflexivity|].
  apply StronglySorted_inv in Hs as [Hs Hf]; rewrite (IH Hs).
  destruct r as [|g r']; simpl; [reflexivity|].
  inversion Hf as [|? ? Hfg _]; subst; unfold mtime_le in Hfg.
  now rewrite (proj2 (Z.leb_le _ _) Hfg).
Qed.

Lemma ssorted_snoc {A} (R : A -> A -> Prop) (l : list A) (y : A) :
  StronglySorted R l -> (forall x, In x l -> R x y) -> StronglySorted R (l ++ [y]).
Proof.
  induction l as [|x r IH]; simpl; intros Hs Hy; [repeat constructor|].
  apply StronglySorted_inv in Hs as [Hs Hx]; constructor; [apply IH; auto|].
  apply Forall_app; split; [exact Hx|constructor; [apply Hy; now left|constructor]].
Qed.

Lemma tl_skipn {A} (i : nat) (l : list A) : tl (skipn i l) = skipn (S i) l.
Proof.
  revert l; induction i as [|i IH]; intros [|x l]; simpl; try reflexivity.
  apply IH.
Qed.

Lemma in_skipn_in {A} (i : nat) (l : list A) (x : A) : In x (skipn i l) -> In x l.
Proof. intro H; rewrite <- (firstn_skipn i l); apply in_or_app; now right. Qed.

(** One successful call, on a directory whose archives are the last
    [max_backups] names already created, sorted by time and no newer than
    the call. *)
Lemma retention_step (sys : BackupSystem) (env : Env) (c : BackupCall) (n : string)
    (prev : list string) :
  0 <= max_backups sys -> NoDup (map bname (backups sys)) ->
  map bname (backup_files (backups sys))
  = skipn (length prev - Z.to_nat (max_backups sys)) prev ->
  StronglySorted mtime_le (backup_files (backups sys)) ->
  (forall f, In f (backup_files (backups sys)) -> bmtime f <= call_now c) ->
  NoDup (prev ++ [n]) ->
  fst (create_backup sys env (call_stamp c) (call_iso c) (call_now c) (call_type c)
         (call_desc c)) = Some n ->
  let sys' := snd (create_backup sys env (call_stamp c) (call_iso c) (call_now c)
                     (call_type c) (call_desc c)) in
  max_backups sys' = max_backups sys /\ NoDup (map bname (backups sys')) /\
  map bname (backup_files (backups sys'))
  = skipn (length (prev ++ [n]) - Z.to_nat (max_backups sys)) (prev ++ [n]) /\
  StronglySorted mtime_le (backup_files (backups sys')) /\
  (forall f, In f (backup_files (backups sys')) -> bmtime f <= call_now c).
Proof.
  intros Hmax Hnd Hk Hss Hle Hndp Hs sys'.
  destruct (create_backup_success _ _ _ _ _ _ _ _ Hs) as (Hn & a & Hb & Hsnd & Hex).
  unfold sys'; rewrite Hsnd; unfold with_backups; cbn [backups max_backups].
  clear sys' Hsnd Hs Hb.
  set (m := Z.to_nat (max_backups sys)) in *.
  set (D := backups sys) in *.
  set (fn := mkBFile n (call_now c) a).
  set (bf := backup_files D) in *.
  assert (Hnb : is_backup_name n = true) by (rewrite Hn; apply backup_name_glob).
  assert (Hnprev : ~ In n prev).
  { intro H; apply NoDup_remove_2 in Hndp; apply Hndp; rewrite app_nil_r; exact H. }
  assert (HnK : ~ In n (map bname bf)) by (rewrite Hk; intro H; now apply in_skipn_in in H).
  assert (HnD : ~ In n (map bname D)).
  { intro H; apply in_map_iff in H as [f [Hfn Hf]]; apply HnK, in_map_iff.
    exists f; split; [exact Hfn|]; apply filter_In; split; [exact Hf|now rewrite Hfn]. }
  assert (Hndd : NoDup (map bname (dir_write n (call_now c) a D))) by (now apply dir_write_nodup).
  rewrite (dir_write_new _ _ _ _ HnD) in Hex, Hndd |- *; fold fn in Hex, Hndd |- *.
  assert (Hf : backup_files (D ++ [fn]) = (bf ++ [fn])%list).
  { unfold backup_files; rewrite filter_app; cbn [filter fn bname]; now rewrite Hnb. }
  assert (HssF : StronglySorted mtime_le (bf ++ [fn])).
  { apply ssorted_snoc; [exact Hss|intros x Hx; unfold mtime_le; cbn [fn bmtime]; auto]. }
  assert (HleF : forall f, In f (bf ++ [fn]) -> bmtime f <= call_now c).
  { intros f Hf'; apply in_app_or in Hf' as [Hf'|[<-|[]]]; [auto|cbn; lia]. }
  assert (Hlen : length bf = (length prev - (length prev - m))%nat).
  { rewrite <- (length_map bname bf), Hk; apply length_skipn. }
  assert (Hm : Z.of_nat m = max_backups sys) by (apply Z2Nat.id; exact Hmax).
  destruct (Nat.lt_ge_cases (length prev) m) as [Hlt|Hge].
  - (* room left: nothing is deleted *)
    rewrite clean_below_max.
    2: { unfold count_backups, len; change (filter _ (D ++ [fn])) with (backup_files (D ++ [fn])).
         rewrite Hf, length_app; simpl; lia. }
    split; [reflexivity|split; [exact Hndd|split; [|split; [rewrite Hf; exact HssF|
                                                           rewrite Hf; exact HleF]]]].
    rewrite Hf, map_app, Hk, length_app; simpl.
    replace (length prev - m)%nat with 0%nat by lia.
    replace (length prev + 1 - m)%nat with 0%nat by lia; reflexivity.
  - (* full: the first archive, the oldest, is deleted *)
    assert (Hlbf : length bf = m) by lia.
    unfold clean_old_backups, files_to_delete in Hex |- *.
    change (filter _ (D ++ [fn])) with (backup_files (D ++ [fn])) in Hex |- *.
    rewrite Hf in Hex |- *.
    replace (len (bf ++ [fn]) <=? max_backups sys) with false in Hex |- *
      by (symmetry; apply Z.leb_gt; unfold len; rewrite length_app; simpl; lia).
    rewrite (sort_mtime_sorted_id _ HssF) in Hex |- *.
    replace (Z.to_nat (len (bf ++ [fn]) - max_backups sys)) with 1%nat in Hex |- *
      by (unfold len; rewrite length_app; simpl; lia).
    destruct bf as [|b0 bt] eqn:Ebf.
    + (* [max_backups = 0]: the new archive itself is deleted *)
      exfalso; cbn [app firstn fold_left] in Hex.
      apply existsb_exists in Hex as [g [Hg Hgn]].
      unfold dir_remove in Hg; apply filter_In in Hg as [_ Hg].
      apply String.eqb_eq in Hgn; cbn [fn bname] in Hg; rewrite Hgn, String.eqb_refl in Hg.
      discriminate.
    + cbn [app firstn fold_left].
      assert (Hndbf : NoDup (map bname (b0 :: bt))).
      { rewrite Hk; apply (NoDup_app_remove_l (firstn (length prev - m) prev)).
        rewrite firstn_skipn; exact (NoDup_app_remove_r _ _ Hndp). }
      assert (Hb0 : forall f, In f (bt ++ [fn]) -> String.eqb (bname f) (bname b0) = false).
      { intros f Hf'; apply String.eqb_neq; intro Heq.
        apply in_app_or in Hf' as [Hf'|[<-|[]]].
        - inversion Hndbf as [|? ? Hn0 _]; apply Hn0; rewrite <- Heq; now apply in_map.
        - apply HnK; cbn [fn bname] in Heq; rewrite Heq; now left. }
      assert (Hbf' : backup_files (dir_remove (bname b0) (D ++ [fn])) = (bt ++ [fn])%list).
      { unfold backup_files, dir_remove; rewrite filter_twice_gen.
        rewrite (filter_ext _ (fun x => is_backup_name (bname x) && negb (String.eqb (bname x) (bname b0))))
          by (intro; apply andb_comm).
        rewrite <- filter_twice_gen.
        change (filter _ (D ++ [fn])) with (backup_files (D ++ [fn])); rewrite Hf.
        cbn [app filter]; rewrite String.eqb_refl; cbn [negb].
        apply filter_all_true; intros x Hx; now rewrite (Hb0 x Hx). }
      rewrite Hbf'.
      split; [reflexivity|split; [unfold dir_remove; now apply nodup_map_filter|split]].
      * rewrite map_app; cbn [map fn bname].
        assert (Hbt : map bname bt = skipn (S (length prev - m)) prev).
        { rewrite <- tl_skipn, <- Hk; reflexivity. }
        rewrite Hbt, length_app, skipn_app; cbn [length].
        replace (length prev + 1 - m)%nat with (S (length prev - m)) by (cbn in Hlbf; lia).
        replace (S (length prev - m) - length prev)%nat with 0%nat by (cbn in Hlbf; lia).
        reflexivity.
      * split; [now apply StronglySorted_inv in HssF as [HssF _]|].
        intros f Hf'; apply HleF; now right.
Qed.

Lemma create_backups_keep_last (env : Env) (calls : list BackupCall) :
  forall (sys : BackupSystem) (prev names : list string),
  0 <= max_backups sys -> NoDup (map bname (backups sys)) ->
  map bname (backup_files (backups sys))
  = skipn (length prev - Z.to_nat (max_backups sys)) prev ->
  StronglySorted mtime_le (backup_files (backups sys)) ->
  (forall f c, In f (backup_files (backups sys)) -> In c calls -> bmtime f <= call_now c) ->
  StronglySorted (fun c1 c2 => call_now c1 <= call_now c2) calls ->
  fst (create_backups sys env calls) = map Some names -> NoDup (prev ++ names) ->
  map bname (backup_files (backups (snd (create_backups sys env calls))))
  = skipn (length (prev ++ names) - Z.to_nat (max_backups sys)) (prev ++ names).
Proof.
  induction calls as [|c r IH]; intros sys prev names Hmax Hnd Hk Hss Hle Hsc Hres Hndp.
  - destruct names; [|discriminate]; now rewrite app_nil_r.
  - cbn [create_backups fst snd] in Hres |- *; cbv zeta in Hres |- *.
    destruct names as [|n ns]; [discriminate|]; injection Hres as Hs Hrest.
    apply StronglySorted_inv in Hsc as [Hsc Hcr].
    assert (Hndp1 : NoDup (prev ++ [n])).
    { apply (NoDup_app_remove_r _ ns); now rewrite <- app_assoc. }
    destruct (retention_step sys env c n prev Hmax Hnd Hk Hss
                (fun f Hf => Hle f c Hf (or_introl eq_refl)) Hndp1 Hs)
      as (Hm' & Hnd' & Hk' & Hss' & Hle').
    rewrite <- Hm'; replace (prev ++ n :: ns)%list with ((prev ++ [n]) ++ ns)%list
      by (now rewrite <- app_assoc).
    apply IH.
    + rewrite Hm'; exact Hmax.
    + exact Hnd'.
    + rewrite Hm'; exact Hk'.
    + exact Hss'.
    + intros f c' Hf Hc'; specialize (Hle' f Hf).
      rewrite Forall_forall in Hcr; specialize (Hcr c' Hc'); lia.
    + exact Hsc.
    + exact Hrest.
    + now rewrite <- app_assoc.
Qed.

(** [create_backup("full", "")] at the stamps and times of [four_distinct]. *)
Definition four_distinct_calls : list BackupCall :=
  map (fun p => mkCall (fst p) iso0 (snd p) "full" "") four_distinct.

(** C7 (amended): a successful [create_backup] on a backup directory
    (distinct file names, [max_backups >= 0]) returns the name built from the
    type, the description and the timestamp; the archive it wrote is in the
    directory. If the directory then holds at most [max_backups] archives,
    nothing is deleted. If it holds more, exactly [max_backups] remain,
    nothing else appears, and every file deleted is an archive no newer than
    any archive kept. Over successive successful calls under distinct names
    and at nondecreasing times, from a directory without archives, the
    archives left are those of the last [max_backups] calls: with
    [max_backups = 3], four backups leave the last three, the oldest
    deleted. Two successful calls with the same timestamp, type and
    description return the same name, and the second archive replaces the
    first in place. *)
Theorem create_backup_retention :
  (forall sys env stamp iso now ty desc n,
     0 <= max_backups sys -> NoDup (map bname (backups sys)) ->
     fst (create_backup sys env stamp iso now ty desc) = Some n ->
     n = backup_name ty desc stamp ++ ".zip" /\
     exists archive,
       build_archive (backup_config sys) env stamp iso now ty desc = Some archive /\
       let d := dir_write n now archive (backups sys) in
       let d' := backups (snd (create_backup sys env stamp iso now ty desc)) in
       In (mkBFile n now archive) d' /\
       (count_backups d <= max_backups sys -> d' = d) /\
       (max_backups sys < count_backups d ->
          count_backups d' = max_backups sys /\
          (forall f, In f d' -> In f d) /\
          (forall f, In f d -> ~ In f d' ->
             is_backup_name (bname f) = true /\
             forall g, In g d' -> is_backup_name (bname g) = true -> bmtime f <= bmtime g))) /\
  (forall sys env calls names,
     0 <= max_backups sys -> count_backups (backups sys) = 0 ->
     NoDup (map bname (backups sys)) ->
     Sorted (fun c1 c2 => call_now c1 <= call_now c2) calls ->
     fst (create_backups sys env calls) = map Some names -> NoDup names ->
     map bname (backup_files (backups (snd (create_backups sys env calls))))
     = skipn (length names - Z.to_nat (max_backups sys)) names) /\
  (forall sys env calls n1 n2 n3 n4,
     max_backups sys = 3 -> count_backups (backups sys) = 0 ->
     NoDup (map bname (backups sys)) ->
     Sorted (fun c1 c2 => call_now c1 <= call_now c2) calls ->
     fst (create_backups sys env calls) = [Some n1; Some n2; Some n3; Some n4] ->
     NoDup [n1; n2; n3; n4] ->
     map bname (backup_files (backups (snd (create_backups sys env calls)))) = [n2; n3; n4]) /\
  (forall sys env stamp iso1 iso2 now1 now2 ty desc n1 n2,
     0 <= max_backups sys -> NoDup (map bname (backups sys)) ->
     let s1 := snd (create_backup sys env stamp iso1 now1 ty desc) in
     fst (create_backup sys env stamp iso1 now1 ty desc) = Some n1 ->
     fst (create_backup s1 env stamp iso2 now2 ty desc) = Some n2 ->
     n2 = n1 /\
     exists a2,
       build_archive (backup_config sys) env stamp iso2 now2 ty desc = Some a2 /\
       backups (snd (create_backup s1 env stamp iso2 now2 ty desc))
       = dir_write n1 now2 a2 (backups s1) /\
       map bname (backups (snd (create_backup s1 env stamp iso2 now2 ty desc)))
       = map bname (backups s1) /\
       (forall f, In f (backups (snd (create_backup s1 env stamp iso2 now2 ty desc))) ->
          bname f = n1 -> f = mkBFile n1 now2 a2)) /\
  map bname (backups (create_full_seq system3 four_distinct))
  = ["backup_full_20261014_020002.zip"; "backup_full_20261014_020003.zip";
     "backup_full_20261014_020004.zip"].
Proof.
  assert (HB : forall sys env calls names,
     0 <= max_backups sys -> count_backups (backups sys) = 0 ->
     NoDup (map bname (backups sys)) ->
     Sorted (fun c1 c2 => call_now c1 <= call_now c2) calls ->
     fst (create_backups sys env calls) = map Some names -> NoDup names ->
     map bname (backup_files (backups (snd (create_backups sys env calls))))
     = skipn (length names - Z.to_nat (max_backups sys)) names).
  { intros sys env calls names Hmax H0 Hnd Hsc Hres Hndn.
    assert (Hbf : backup_files (backups sys) = []).
    { apply length_zero_iff_nil; unfold count_backups, len in H0; change (filter _ _) with
        (backup_files (backups sys)) in H0; lia. }
    apply (create_backups_keep_last env calls sys [] names); auto; rewrite ?Hbf.
    - reflexivity.
    - constructor.
    - intros f c [].
    - apply Sorted_StronglySorted; [intros x y z; lia|exact Hsc]. }
  split; [|split; [exact HB|split; [|split]]].
  - (* one call *)
    intros sys env stamp iso now ty desc n Hmax Hnd Hs.
    destruct (create_backup_success _ _ _ _ _ _ _ _ Hs) as (Hn & a & Hb & Hsnd & Hex).
    split; [exact Hn|exists a; split; [exact Hb|]].
    cbv zeta; rewrite Hsnd; unfold with_backups; cbn [backups].
    assert (Hndd : NoDup (map bname (dir_write n now a (backups sys)))) by (now apply dir_write_nodup).
    split; [now apply create_backup_file_kept|split].
    + apply clean_below_max.
    + intro Hgt; now apply clean_old_backups_spec.
  - (* four calls, three kept *)
    intros sys env calls n1 n2 n3 n4 Hm H0 Hnd Hsc Hres Hndn.
    rewrite (HB sys env calls [n1; n2; n3; n4]); auto; [|lia]; rewrite Hm; reflexivity.
  - (* two calls under one name *)
    intros sys env stamp iso1 iso2 now1 now2 ty desc n1 n2 Hmax Hnd s1 Hs1 Hs2.
    destruct (create_backup_success _ _ _ _ _ _ _ _ Hs1) as (Hn1 & a1 & Hb1 & Hsnd1 & Hex1).
    destruct (create_backup_success _ _ _ _ _ _ _ _ Hs2) as (Hn2 & a2 & Hb2 & Hsnd2 & Hex2).
    assert (Hs1e : s1 = with_backups sys (clean_old_backups (max_backups sys)
                                             (dir_write n1 now1 a1 (backups sys))))
      by exact Hsnd1.
    assert (Hnd1 : NoDup (map bname (backups s1))).
    { rewrite Hs1e; apply clean_nodup, dir_write_nodup, Hnd. }
    assert (Hin1 : In n1 (map bname (backups s1))).
    { rewrite Hs1e; unfold with_backups; cbn [backups].
      apply existsb_exists in Hex1 as [g [Hg Hgn]].
      apply String.eqb_eq in Hgn; apply (in_map bname) in Hg; rewrite Hgn in Hg; exact Hg. }
    assert (Hc1 : count_backups (backups s1) <= max_backups s1).
    { rewrite Hs1e; unfold with_backups; cbn [backups max_backups].
      apply clean_count_le; [exact Hmax|now apply dir_write_nodup]. }
    assert (Hnames : map bname (dir_write n1 now2 a2 (backups s1)) = map bname (backups s1)).
    { rewrite dir_write_names.
      replace (existsb (String.eqb n1) (map bname (backups s1))) with true; [reflexivity|].
      symmetry; apply existsb_exists; exists n1; split; [exact Hin1|apply String.eqb_refl]. }
    assert (Hn : n2 = n1) by congruence.
    clear Hn2; subst n2; split; [reflexivity|exists a2].
    split; [rewrite Hs1e in Hb2; exact Hb2|].
    rewrite Hsnd2, clean_below_max.
    2: { rewrite (count_backups_names _ _ Hnames); exact Hc1. }
    unfold with_backups; cbn [backups].
    split; [reflexivity|split; [exact Hnames|]].
    intros f Hf Hfn; now apply (dir_write_unique n1 now2 a2 (backups s1)).
  - vm_compute; reflexivity.
Qed.

Lemma create_backup_retention_witness :
  map bname (backup_files (backups (snd (create_backups system3 db_env four_distinct_calls))))
  = ["backup_full_20261014_020002.zip"; "backup_full_20261014_020003.zip";
     "backup_full_20261014_020004.zip"].
Proof.
  apply (proj1 (proj2 (proj2 create_backup_retention)) system3 db_env four_distinct_calls
           "backup_full_20261014_020001.zip" _ _ _).
  - reflexivity.
  - reflexivity.
  - constructor.
  - repeat constructor; cbn; lia.
  - vm_compute; reflexivity.
  - repeat constructor; cbn; intuition discriminate.
Defined.

(* ------------------------------------------------------------------ *)
(** ** Lemmas on the capture steps *)

Lemma dict_set_in_keys {V} (k : string) (v : V) (d : list (string * V)) (p : string) :
  In p (map fst (dict_set k v d)) <-> p = k \/ In p (map fst d).
Proof.
  rewrite dict_set_keys; destruct (dict_get k d) as [w|] eqn:G.
  - split; [now right|intros [->|H]; [|exact H]].
    apply dict_get_in in G; now apply (in_map fst) in G.
  - rewrite in_app_iff; simpl; split;
      [intros [H|[H|[]]]; [now right|now left]|intros [->|H]; [right; now left|now left]].
Qed.

(** The tree a fold builds depends only on the tree it starts from, when each
    step does. *)
Lemma fold_fst_indep {A} (f : tree * Metadata -> A -> tree * Metadata) (l : list A) :
  (forall a b x, fst a = fst b -> fst (f a x) = fst (f b x)) ->
  forall a b, fst a = fst b -> fst (fold_left f l a) = fst (fold_left f l b).
Proof.
  intro Hf; induction l as [|x r IH]; intros a b Hab; simpl; [exact Hab|].
  apply IH, Hf, Hab.
Qed.

Ltac fst_step :=
  let H := fresh "Hs" in
  intros [t1 m1] [t2 m2] x H; cbn [fst] in H; subst t2;
  repeat match goal with |- context [match ?e with _ => _ end] => destruct e end;
  reflexivity.

Lemma dump_table_fst (table : string) (data : json) (a b : tree * Metadata) :
  fst a = fst b -> fst (dump_table table data a) = fst (dump_table table data b).
Proof.
  intro Hab; unfold dump_table; destruct (json_truthy data); [|exact Hab].
  destruct (json_len data); cbn [fst]; now rewrite Hab.
Qed.

Lemma db_fold_fst (env : Env) (l : list string) :
  forall (a b : tree * Metadata) (last : option json), fst a = fst b ->
  fst (fst (fold_left (db_step env) l (a, last)))
  = fst (fst (fold_left (db_step env) l (b, last))).
Proof.
  induction l as [|x r IH]; intros a b last Hab; simpl; [exact Hab|].
  destruct (db_select env x); apply IH; [now apply dump_table_fst|exact Hab].
Qed.

Lemma backup_database_fst (env : Env) (iso : string) (a b : tree * Metadata) :
  fst a = fst b -> fst (backup_database env iso a) = fst (backup_database env iso b).
Proof.
  intro Hab; destruct (database_ok env) eqn:Hok.
  - rewrite !backup_database_eq by exact Hok.
    destruct (schema_info iso (last_data env)); cbn [fst];
      now rewrite (db_fold_fst env tables a b None Hab).
  - unfold backup_database; rewrite Hok; exact Hab.
Qed.

Lemma backup_configs_fst (env : Env) (a b : tree * Metadata) :
  fst a = fst b -> fst (backup_configs env a) = fst (backup_configs env b).
Proof. intro Hab; unfold backup_configs; apply fold_fst_indep; [fst_step|exact Hab]. Qed.

Lemma backup_wilo_data_fst (env : Env) (a b : tree * Metadata) :
  fst a = fst b -> fst (backup_wilo_data env a) = fst (backup_wilo_data env b).
Proof.
  intro Hab; unfold backup_wilo_data; destruct (dir_exists _ _); [|exact Hab].
  cbn [fst]; now rewrite Hab.
Qed.

Lemma backup_logs_fst (env : Env) (now : Z) (a b : tree * Metadata) :
  fst a = fst b -> fst (backup_logs env now a) = fst (backup_logs env now b).
Proof.
  intro Hab; unfold backup_logs; destruct (dir_exists _ _); [|exact Hab].
  cbn [fst]; now rewrite Hab.
Qed.

Lemma backup_images_fst (env : Env) (a b : tree * Metadata) :
  fst a = fst b -> fst (backup_images env a) = fst (backup_images env b).
Proof.
  intro Hab; unfold backup_images; destruct (dir_exists _ _); [|exact Hab].
  destruct (_ ++ _)%list; [exact Hab|]; cbn [fst]; now rewrite Hab.
Qed.

Lemma full_backup_fst (cfg : BackupConfig) (env : Env) (iso : string) (now : Z)
    (a b : tree * Metadata) :
  fst a = fst b -> fst (full_backup cfg env iso now a) = fst (full_backup cfg env iso now b).
Proof.
  intro Hab; unfold full_backup.
  destruct (include_database cfg), (include_configs cfg), (include_wilo_data cfg),
    (include_logs cfg), (include_images cfg);
    repeat first [ apply backup_images_fst | apply backup_logs_fst
                 | apply backup_wilo_data_fst | apply backup_configs_fst
                 | apply backup_database_fst | exact Hab ].
Qed.

(** The keys a fold adds are described by [P] when each step's are. *)
Lemma fold_keys {A} (f : tree * Metadata -> A -> tree * Metadata) (P : A -> string -> Prop) :
  (forall acc x p, In p (map fst (fst (f acc x))) <-> In p (map fst (fst acc)) \/ P x p) ->
  forall l acc p, In p (map fst (fst (fold_left f l acc)))
                  <-> In p (map fst (fst acc)) \/ exists x, In x l /\ P x p.
Proof.
  intro Hf; induction l as [|x r IH]; intros acc p; simpl.
  - split; [now left|intros [H|[y [[] _]]]; exact H].
  - rewrite IH, Hf; split.
    + intros [[H|H]|[y [Hy H]]]; [now left|right; exists x; now split; [left|]|].
      right; exists y; now split; [right|].
    + intros [H|[y [[<-|Hy] H]]]; [now left; left|now left; right|right; now exists y].
Qed.

Lemma dump_table_keys (table : string) (data : json) (tm : tree * Metadata) (p : string) :
  In p (map fst (fst (dump_table table data tm))) <->
  In p (map fst (fst tm)) \/ (json_truthy data = true /\ p = "database/" ++ table ++ ".json").
Proof.
  unfold dump_table; destruct (json_truthy data).
  - destruct (json_len data); cbn [fst]; rewrite dict_set_in_keys;
      (split; [intros [H|H]; [right; now split|now left]|intros [H|[_ H]]; [now right|now left]]).
  - split; [now left|intros [H|[H _]]; [exact H|discriminate]].
Qed.

Lemma db_fold_keys (env : Env) (l : list string) :
  forall (tm : tree * Metadata) (last : option json) (p : string),
  In p (map fst (fst (fst (fold_left (db_step env) l (tm, last))))) <->
  In p (map fst (fst tm)) \/
  exists table, In table l /\
    exists data, db_select env table = Some data /\ json_truthy data = true /\
                 p = "database/" ++ table ++ ".json".
Proof.
  induction l as [|x r IH]; intros tm last p; simpl.
  - split; [now left|intros [H|[y [[] _]]]; exact H].
  - destruct (db_select env x) as [data|] eqn:Hs; rewrite IH; [rewrite dump_table_keys|]; split.
    + intros [[H|[Ht Hp]]|[y [Hy H]]]; [now left| |].
      * right; exists x; split; [now left|exists data; now split].
      * right; exists y; split; [now right|exact H].
    + intros [H|[y [[<-|Hy] (d & Hd & Ht & Hp)]]].
      * now left; left.
      * rewrite Hs in Hd; injection Hd as <-; left; right; now split.
      * right; exists y; split; [exact Hy|exists d; now split].
    + intros [H|[y [Hy H]]]; [now left|right; exists y; split; [now right|exact H]].
    + intros [H|[y [[<-|Hy] (d & Hd & Ht & Hp)]]].
      * now left.
      * rewrite Hs in Hd; discriminate.
      * right; exists y; split; [exact Hy|exists d; now split].
Qed.

Lemma backup_database_keys (env : Env) (iso : string) (tm : tree * Metadata) (p : string) :
  database_ok env = true ->
  (In p (map fst (fst (backup_database env iso tm))) <->
   (p = "database/schema_info.json" /\ schema_info iso (last_data env) <> None) \/
   In p (map fst (fst tm)) \/
   exists table, In table tables /\
     exists data, db_select env table = Some data /\ json_truthy data = true /\
                  p = "database/" ++ table ++ ".json").
Proof.
  intro Hok; rewrite backup_database_eq by exact Hok.
  destruct (schema_info iso (last_data env)) as [j|]; cbn [fst];
    [rewrite dict_set_in_keys|]; rewrite db_fold_keys.
  - split.
    + intros [H|[H|H]]; [left; split; [exact H|discriminate]|right; now left|right; now right].
    + intros [[H _]|[H|H]]; [now left|right; now left|right; now right].
  - split; [intro H; now right|intros [[_ H]|H]; [exfalso; now apply H|exact H]].
Qed.

(** Every path of the working tree starts with a directory name not
    beginning with ["m"] ([database/], [config/], [wilo_data/], [logs/],
    [images/]). *)
Definition keys_ok (t : tree) : Prop := forall p, In p (map fst t) -> String.prefix "m" p = false.

Lemma keys_ok_set (k : string) (v : content) (t : tree) :
  String.prefix "m" k = false -> keys_ok t -> keys_ok (dict_set k v t).
Proof.
  intros Hk Ht p Hp; apply dict_set_in_keys in Hp as [->|Hp]; [exact Hk|now apply Ht].
Qed.

Lemma keys_ok_fold_copy (pre : string) (files : list (string * content)) (t : tree) :
  (forall x, String.prefix "m" (pre ++ x) = false) -> keys_ok t ->
  keys_ok (fold_left (fun t p => dict_set (pre ++ fst p) (snd p) t) files t).
Proof.
  intros Hpre Ht; apply (fold_pres keys_ok); [exact Ht|].
  intros t0 p H0; now apply keys_ok_set.
Qed.

Ltac prefix_m := intro; reflexivity.

Lemma full_backup_keys_ok (cfg : BackupConfig) (env : Env) (iso : string) (now : Z)
    (tm : tree * Metadata) :
  keys_ok (fst tm) -> keys_ok (fst (full_backup cfg env iso now tm))
  /\ keys_ok (fst (backup_database env iso tm)).
Proof.
  assert (Hdb : forall tm, keys_ok (fst tm) -> keys_ok (fst (backup_database env iso tm))).
  { intros tm0 H; destruct (database_ok env) eqn:Hok;
      [|unfold backup_database; rewrite Hok; exact H].
    intros p Hp; apply (backup_database_keys env iso tm0 p Hok) in Hp
      as [[-> _]|[Hp|(table & _ & data & _ & _ & ->)]]; [reflexivity|now apply H|reflexivity]. }
  assert (Hcf : forall tm, keys_ok (fst tm) -> keys_ok (fst (backup_configs env tm))).
  { intros tm0 H; unfold backup_configs; apply (fold_pres (fun tm => keys_ok (fst tm))); [exact H|].
    intros [t m] path Hb; cbn beta iota.
    destruct (dict_get path (cwd env)); cbn [fst]; [apply keys_ok_set; [reflexivity|]|]; exact Hb. }
  assert (Hw : forall tm, keys_ok (fst tm) -> keys_ok (fst (backup_wilo_data env tm))).
  { intros tm0 H; unfold backup_wilo_data; destruct (dir_exists _ _); [|exact H].
    cbn [fst]; apply keys_ok_fold_copy; [prefix_m|exact H]. }
  assert (Hl : forall tm, keys_ok (fst tm) -> keys_ok (fst (backup_logs env now tm))).
  { intros tm0 H; unfold backup_logs; destruct (dir_exists _ _); [|exact H].
    cbn [fst]; apply (fold_pres keys_ok); [exact H|].
    intros t0 p H0; apply keys_ok_set; [reflexivity|exact H0]. }
  assert (Hi : forall tm, keys_ok (fst tm) -> keys_ok (fst (backup_images env tm))).
  { intros tm0 H; unfold backup_images; destruct (dir_exists _ _); [|exact H].
    destruct (_ ++ _)%list; [exact H|].
    cbn [fst]; apply keys_ok_fold_copy; [prefix_m|exact H]. }
  intro H; split; [|now apply Hdb].
  unfold full_backup.
  destruct (include_database cfg), (include_configs cfg), (include_wilo_data cfg),
    (include_logs cfg), (include_images cfg);
    repeat first [ apply Hi | apply Hl | apply Hw | apply Hcf | apply Hdb | exact H ].
Qed.

Lemma build_archive_keys_ok (cfg : BackupConfig) (env : Env) (stamp iso : string) (now : Z)
    (ty desc : string) (archive : list (string * content)) :
  build_archive cfg env stamp iso now ty desc = Some archive -> keys_ok archive.
Proof.
  unfold build_archive, populate; cbv zeta.
  assert (Hp : forall tm : tree * Metadata,
                 keys_ok (fst tm) -> compress_backup env (fst tm) = Some archive ->
                 keys_ok archive).
  { intros [t m] Ht Hc; cbn [fst] in *; unfold compress_backup in Hc.
    destruct (dict_get "metadata.json" t) as [c|] eqn:G.
    - apply dict_get_in, (in_map fst) in G; specialize (Ht _ G); discriminate.
    - inversion Hc; subst; exact Ht. }
  destruct (String.eqb ty "full");
    [|destruct (String.eqb ty "database_only"); [|destruct (String.eqb ty "incremental"); [|discriminate]]];
    match goal with
    | |- context [full_backup cfg env iso now ?x] =>
        destruct (full_backup_keys_ok cfg env iso now x ltac:(intros p [])) as [Hf _];
        destruct (full_backup cfg env iso now x) as [t m]
    | |- context [backup_database env iso ?x] =>
        destruct (full_backup_keys_ok cfg env iso now x ltac:(intros p [])) as [_ Hf];
        destruct (backup_database env iso x) as [t m]
    end.
  - apply (Hp (t, m) Hf).
  - apply (Hp (t, m) Hf).
  - apply (Hp (t, set_mtype m "incremental") Hf).
Qed.

Lemma prefix_head (c : ascii) (s x : string) :
  String.prefix (String c s) x = true -> String.prefix (String c "") x = true.
Proof.
  destruct x as [|c' x]; simpl; [discriminate|].
  destruct (ascii_dec c c'); [intros _; now destruct x|discriminate].
Qed.

(** An ["incremental"] backup writes the same archive as a ["full"] one:
    [_incremental_backup] runs [_full_backup] and only relabels the
    metadata, which the archive does not hold anyway. *)
Theorem incremental_is_full (cfg : BackupConfig) (env : Env) (stamp iso : string) (now : Z)
    (desc : string) :
  build_archive cfg env stamp iso now "incremental" desc
  = build_archive cfg env stamp iso now "full" desc.
Proof.
  unfold build_archive, populate; cbn [String.eqb Ascii.eqb Bool.eqb andb].
  assert (H : fst (full_backup cfg env iso now ([], create_metadata env stamp iso "incremental" desc))
             = fst (full_backup cfg env iso now ([], create_metadata env stamp iso "full" desc)))
    by (apply full_backup_fst; reflexivity).
  destruct (full_backup cfg env iso now ([], create_metadata env stamp iso "incremental" desc)).
  cbn [fst] in *; rewrite H.
  now destruct (full_backup cfg env iso now ([], create_metadata env stamp iso "full" desc)).
Qed.

(** A ["database_only"] backup holds one dump per table whose [SELECT]
    returned rows, and the schema file unless [len] of the last result that
    a [SELECT] returned raises (a [TypeError] on a number, a boolean or
    [None]); with no database connection it still succeeds, with an empty
    archive. *)
Theorem database_only_archive (cfg : BackupConfig) (env : Env) (stamp iso : string) (now : Z)
    (desc : string) :
  (database_ok env = false ->
   build_archive cfg env stamp iso now "database_only" desc = Some []) /\
  (database_ok env = true ->
   exists archive, build_archive cfg env stamp iso now "database_only" desc = Some archive /\
   forall p, In p (map fst archive) <->
     (p = "database/schema_info.json" /\
      match last_data env with Some data => json_len data <> None | None => True end) \/
     exists table, In table tables /\
       exists data, db_select env table = Some data /\ json_truthy data = true /\
                    p = "database/" ++ table ++ ".json").
Proof.
  unfold build_archive, populate; cbn [String.eqb Ascii.eqb Bool.eqb andb].
  assert (Hc : forall tm : tree * Metadata, no_meta tm -> compress_backup env (fst tm) = Some (fst tm)).
  { intros [t m] H; unfold no_meta in H; cbn [fst] in *; unfold compress_backup; now rewrite H. }
  split; intro Hok.
  - unfold backup_database; rewrite Hok; reflexivity.
  - match goal with |- context [backup_database env iso ?x] =>
      pose proof (fun p => backup_database_keys env iso x p Hok) as Hk;
      assert (Hnm : no_meta (backup_database env iso x)) by (now apply backup_database_no_meta);
      destruct (backup_database env iso x) as [t m] end.
    exists t; split; [apply (Hc (t, m) Hnm)|].
    assert (Hs : schema_info iso (last_data env) <> None <->
                 match last_data env with Some data => json_len data <> None | None => True end).
    { unfold schema_info; destruct (last_data env) as [data|]; [|split; [tauto|discriminate]].
      destruct (json_len data); split; try discriminate; intro H; exfalso; now apply H. }
    intro p; rewrite (Hk p); cbn [fst map In]; split.
    + intros [[H1 H2]|[[]|H]]; [left; split; [exact H1|now apply Hs]|now right].
    + intros [[H1 H2]|H]; [left; split; [exact H1|now apply Hs]|right; now right].
Qed.

Lemma database_only_archive_witness :
  database_ok db_env = true /\
  exists archive, build_archive default_backup_config db_env "20261014_020000" iso0 0
                    "database_only" "" = Some archive /\
                  In "database/daily_kpis.json" (map fst archive).
Proof.
  assert (Hok : database_ok db_env = true) by reflexivity.
  split; [exact Hok|].
  destruct (proj2 (database_only_archive default_backup_config db_env "20261014_020000" iso0 0 "")
              Hok) as (a & Ha & Hk).
  exists a; split; [exact Ha|].
  apply Hk; right; exists "daily_kpis"; split; [simpl; tauto|].
  exists kpi_rows; split; [reflexivity|split; reflexivity].
Defined.

(** No archive [create_backup] writes can be restored from a clean state:
    [restore_backup] returns [False] and restores nothing, whatever the
    [restore_type], and leaves the extracted files in [restore_temp]. *)
Theorem created_archive_not_restorable (cfg : BackupConfig) (env : Env) (stamp iso : string)
    (now : Z) (ty desc : string) (archive : list (string * content)) (restore_type : string)
    (db_ok : bool) (sys : BackupSystem) :
  build_archive cfg env stamp iso now ty desc = Some archive ->
  restore_temp sys = None ->
  fst (fst (restore_backup archive restore_type db_ok sys)) = false /\
  snd (fst (restore_backup archive restore_type db_ok sys)) = [] /\
  restore_temp (snd (restore_backup archive restore_type db_ok sys)) = extract_all archive None.
Proof.
  intros Hb Ht.
  pose proof (build_archive_keys_ok cfg env stamp iso now ty desc archive Hb) as Hk.
  set (files := match extract_all archive None with Some x => x | None => [] end).
  assert (Hf : keys_ok files).
  { unfold files, extract_all; destruct archive as [|a r]; [intros p []|].
    intros p Hp.
    assert (Hsub : forall (l : list (string * content)) (t0 : tree) q,
               In q (map fst (fold_left (fun acc p => dict_set (fst p) (snd p) acc) l t0)) ->
               In q (map fst l) \/ In q (map fst t0)).
    { induction l as [|x l IH]; intros t0 q Hq; simpl in *; [now right|].
      destruct (IH _ _ Hq) as [H|H]; [now left; right|].
      apply dict_set_in_keys in H as [H|H]; [left; now left|now right]. }
    destruct (Hsub _ _ _ Hp) as [H|[]]; now apply Hk. }
  assert (Hg : dict_get "metadata.json" files = None).
  { destruct (dict_get "metadata.json" files) as [c|] eqn:G; [|reflexivity].
    apply dict_get_in, (in_map fst) in G; specialize (Hf _ G); discriminate. }
  assert (Hd : dir_exists "metadata.json" files = false).
  { unfold dir_exists; apply Bool.not_true_iff_false; intro Hex.
    apply existsb_exists in Hex as [[q c] [Hq Hpre]]; cbn [fst] in Hpre.
    apply prefix_head in Hpre; apply (in_map fst) in Hq; specialize (Hf _ Hq).
    cbn [fst] in Hf; congruence. }
  unfold restore_backup; rewrite Ht; fold files; rewrite Hg, Hd.
  split; [reflexivity|split; reflexivity].
Qed.

Lemma created_archive_not_restorable_witness :
  (build_archive default_backup_config db_env "20261014_020000" iso0 0 "full" ""
     = Some [("database/daily_kpis.json", JsonText kpi_rows);
             ("database/schema_info.json", JsonText db_env_schema)] /\
   restore_temp new_backup_system = None) /\
  fst (fst (restore_backup [("database/daily_kpis.json", JsonText kpi_rows);
                            ("database/schema_info.json", JsonText db_env_schema)]
              "full" true new_backup_system)) = false.
Proof.
  assert (Hb : build_archive default_backup_config db_env "20261014_020000" iso0 0 "full" ""
               = Some [("database/daily_kpis.json", JsonText kpi_rows);
                       ("database/schema_info.json", JsonText db_env_schema)])
    by (vm_compute; reflexivity).
  split; [split; [exact Hb|reflexivity]|].
  exact (proj1 (created_archive_not_restorable default_backup_config db_env "20261014_020000"
                  iso0 0 "full" "" _ "full" true new_backup_system Hb eq_refl)).
Defined.

(* ------------------------------------------------------------------ *)
(** ** Invalidation by pattern *)

(** [fnmatch.fnmatch(name, pat)] on POSIX ([normcase] is the identity), for
    patterns without a bracket expression: [*] matches any sequence of
    characters, [?] any one character, every other character itself. *)
Fixpoint fnmatch (p s : string) : bool :=
  match p with
  | EmptyString => match s with EmptyString => true | String _ _ => false end
  | String c p' =>
      if Ascii.eqb c "*"%char then
        (fix star (s : string) : bool :=
           fnmatch p' s || match s with EmptyString => false | String _ s' => star s' end) s
      else if Ascii.eqb c "?"%char then
        match s with EmptyString => false | String _ s' => fnmatch p' s' end
      else
        match s with EmptyString => false | String d s' => Ascii.eqb c d && fnmatch p' s' end
  end.

(** [SmartCache.invalidate_by_pattern]: the count returned and the cache
    after; [None] for a pattern with a ["["], whose bracket expressions this
    model leaves out. *)
Definition invalidate_by_pattern (pattern : string) (c : SmartCache) : option (Z * SmartCache) :=
  if contains "[" pattern then None
  else
    let keys_to_delete := filter (fun k => fnmatch pattern k) (map fst (cache c)) in
    let d := fold_left (fun d k => dict_del k d) keys_to_delete (cache c) in
    let c' := mkCache d (max_size c) (set_size (stats c) (len d)) in
    Some (match keys_to_delete with [] => 0 | _ => len keys_to_delete end, c').

(** [CacheManager.invalidate_function_cache] *)
Definition invalidate_function_cache (func_name ns : string) (m : CacheManager)
  : option (Z * CacheManager) :=
  let (cache_instance, m1) := get_namespace ns m in
  match invalidate_by_pattern ("*" ++ func_name ++ "*") cache_instance with
  | Some (n, ci) => Some (n, put_namespace ns ci m1)
  | None => None
  end.

(** A lowercase hexadecimal digit, the characters of [hexdigest()]. *)
Definition is_hex (c : ascii) : bool := existsb (Ascii.eqb c) (list_ascii_of_string "0123456789abcdef").

Lemma list_ascii_app (s t : string) :
  list_ascii_of_string (s ++ t) = (list_ascii_of_string s ++ list_ascii_of_string t)%list.
Proof. induction s as [|c s IH]; simpl; [reflexivity|now rewrite IH]. Qed.

(** Every character of the pattern other than [*] and [?] occurs in a name
    it matches. *)
Lemma fnmatch_chars (p s : string) (x : ascii) :
  fnmatch p s = true -> In x (list_ascii_of_string p) -> x <> "*"%char -> x <> "?"%char ->
  In x (list_ascii_of_string s).
Proof.
  revert s; induction p as [|c p IH]; intros s H Hx Hs Hq; simpl in Hx; [contradiction|].
  simpl in H.
  destruct (Ascii.eqb c "*"%char) eqn:Ec.
  - apply Ascii.eqb_eq in Ec; subst c.
    destruct Hx as [Hx|Hx]; [subst x; contradiction|].
    induction s as [|d s IHs].
    + rewrite orb_false_r in H; exact (IH _ H Hx Hs Hq).
    + apply orb_true_iff in H as [H|H]; [exact (IH _ H Hx Hs Hq)|].
      simpl; right; now apply IHs.
  - destruct (Ascii.eqb c "?"%char) eqn:Eq.
    + apply Ascii.eqb_eq in Eq; subst c.
      destruct Hx as [Hx|Hx]; [subst x; contradiction|].
      destruct s as [|d s]; [discriminate|simpl; right; exact (IH _ H Hx Hs Hq)].
    + destruct s as [|d s]; [discriminate|].
      apply andb_true_iff in H as [Hcd H]; apply Ascii.eqb_eq in Hcd; subst d.
      simpl; destruct Hx as [Hx|Hx]; [now left|right; exact (IH _ H Hx Hs Hq)].
Qed.

(** [invalidate_function_cache(func_name)] looks for [func_name] inside the
    cache keys, but the keys [memoize] stores are [md5] hex digests: as soon
    as [func_name] has a character that is not a hex digit (any name with
    a letter after [f] or an underscore), it deletes nothing and returns 0. *)
Theorem invalidate_function_cache_noop (func_name ns : string) (m : CacheManager) (x : ascii) :
  (forall k, In k (get_keys (fst (get_namespace ns m))) ->
     forall y, In y (list_ascii_of_string k) -> is_hex y = true) ->
  In x (list_ascii_of_string func_name) -> is_hex x = false ->
  x <> "*"%char -> x <> "?"%char -> contains "[" ("*" ++ func_name ++ "*") = false ->
  exists m', invalidate_function_cache func_name ns m = Some (0, m') /\
    get_keys (fst (get_namespace ns m')) = get_keys (fst (get_namespace ns m)).
Proof.
  intros Hkeys Hx Hhex Hs Hq Hb.
  unfold invalidate_function_cache.
  destruct (get_namespace ns m) as [ci m1] eqn:G; cbn [fst] in *.
  unfold invalidate_by_pattern; rewrite Hb.
  assert (Hnone : filter (fun k => fnmatch ("*" ++ func_name ++ "*") k) (map fst (cache ci)) = []).
  { apply filter_all_false; intros k Hk.
    destruct (fnmatch _ k) eqn:F; [|reflexivity].
    exfalso.
    assert (Hin : In x (list_ascii_of_string ("*" ++ func_name ++ "*"))).
    { rewrite !list_ascii_app; apply in_or_app; right; apply in_or_app; now left. }
    pose proof (fnmatch_chars _ _ x F Hin Hs Hq) as Hk'.
    rewrite (Hkeys k Hk x Hk') in Hhex; discriminate. }
  rewrite Hnone; cbv zeta; cbn [fold_left].
  eexists; split; [reflexivity|].
  unfold put_namespace, get_namespace; cbn [namespaces]; rewrite dict_get_set_same.
  reflexivity.
Qed.

Definition memo_digest_state : CacheManager :=
  mkManager (new_cache 1000)
    [("default", mkCache [("3f2a9c0d1b7e4f6a8c5d2e1f0a9b8c7d",
                           mkEntry "3f2a9c0d1b7e4f6a8c5d2e1f0a9b8c7d" (PyInt 42) 0 300 0 0 [])]
                   500 (mkStats 0 1 0 0 1))].

Lemma invalidate_function_cache_noop_witness :
  ((forall k, In k (get_keys (fst (get_namespace "default" memo_digest_state))) ->
     forall y, In y (list_ascii_of_string k) -> is_hex y = true) /\
   In "o"%char (list_ascii_of_string "obtener_kpis") /\ is_hex "o"%char = false /\
   "o"%char <> "*"%char /\ "o"%char <> "?"%char /\
   contains "[" ("*" ++ "obtener_kpis" ++ "*") = false) /\
  exists m', invalidate_function_cache "obtener_kpis" "default" memo_digest_state = Some (0, m').
Proof.
  assert (Hk : forall k, In k (get_keys (fst (get_namespace "default" memo_digest_state))) ->
                 forall y, In y (list_ascii_of_string k) -> is_hex y = true).
  { intros k Hk y Hy; simpl in Hk; destruct Hk as [<-|[]].
    simpl in Hy; repeat (destruct Hy as [<-|Hy]; [reflexivity|]); destruct Hy. }
  assert (Hx : In "o"%char (list_ascii_of_string "obtener_kpis")) by (simpl; now left).
  assert (Hs : "o"%char <> "*"%char) by discriminate.
  assert (Hq : "o"%char <> "?"%char) by discriminate.
  split; [split; [exact Hk|split; [exact Hx|split; [reflexivity|split; [exact Hs|split; [exact Hq|reflexivity]]]]]|].
  destruct (invalidate_function_cache_noop "obtener_kpis" "default" memo_digest_state "o"%char
              Hk Hx eq_refl Hs Hq eq_refl) as (m' & Hm & _).
  now exists m'.
Defined.

(* ------------------------------------------------------------------ *)
(** ** What a restore reports and does *)










Lemma filter_map_fst {V} (P : string -> bool) (d : list (string * V)) :
  filter P (map fst d) = map fst (filter (fun p => P (fst p)) d).
Proof. induction d as [|[k v] r IH]; simpl; [reflexivity|]; destruct (P k); simpl; now rewrite IH. Qed.

(** With distinct keys and a bracket-free pattern, [invalidate_by_pattern]
    keeps exactly the entries whose key the pattern does not match, returns
    how many it removed, and leaves [stats['size']] equal to the number of
    entries. *)
Theorem invalidate_by_pattern_spec (pattern : string) (c : SmartCache) :
  keys_unique c -> contains "[" pattern = false ->
  exists n c', invalidate_by_pattern pattern c = Some (n, c') /\
    cache c' = filter (fun p => negb (fnmatch pattern (fst p))) (cache c) /\
    n = len (filter (fun p => fnmatch pattern (fst p)) (cache c)) /\
    max_size c' = max_size c /\ size_ok c' /\ keys_unique c'.
Proof.
  intros Hu Hb; unfold invalidate_by_pattern; rewrite Hb.
  rewrite filter_map_fst.
  rewrite (fold_del_selected (fun p => fnmatch pattern (fst p)) (cache c) Hu).
  eexists _, _; split; [reflexivity|].
  cbn [cache max_size stats]; split; [reflexivity|]; split.
  - destruct (filter _ (cache c)); [reflexivity|]; unfold len; now rewrite length_map.
  - split; [reflexivity|]; split.
    + unfold size_ok; cbn [stats cache]; destruct (stats c); reflexivity.
    + unfold keys_unique; cbn [cache]; now apply nodup_map_filter.
Qed.

Lemma invalidate_by_pattern_spec_witness :
  (keys_unique lru_cache /\ contains "[" "a*" = false) /\
  exists n c', invalidate_by_pattern "a*" lru_cache = Some (n, c') /\
    cache c' = filter (fun p => negb (fnmatch "a*" (fst p))) (cache lru_cache) /\
    n = len (filter (fun p => fnmatch "a*" (fst p)) (cache lru_cache)) /\
    max_size c' = max_size lru_cache /\ size_ok c' /\ keys_unique c'.
Proof.
  assert (Hu : keys_unique lru_cache).
  { unfold keys_unique; simpl; constructor; [simpl; intros [H|[]]; discriminate|constructor; [intros []|constructor]]. }
  split; [split; [exact Hu|reflexivity]|].
  exact (invalidate_by_pattern_spec "a*" lru_cache Hu eq_refl).
Defined.

Lemma cleanup_expired_spec_witness :
  keys_unique lru_cache /\
  cache (cleanup_expired 400000000 lru_cache)
  = filter (fun p => negb (is_expired 400000000 (snd p))) (cache lru_cache).
Proof.
  split; [exact lru_cache_keys|].
  exact (proj1 (cleanup_expired_spec 400000000 lru_cache lru_cache_keys)).
Defined.
